(** * Konnect entity operations: a shallow embedding of the dispatch core.

    The development follows the Go package [konnect]: the generic entry points
    [Create], [Update] and [Delete], the telemetry routine [logOpComplete], the
    error normalizer [wrapErrIfKonnectOpFailed], and the condition constants.

    Go state is made explicit.  Entities live in a store addressed by
    locations (a Go pointer [*T] is an optional location), the wall clock is a
    sequence of readings, and everything observable that a call does (adapter
    invocations, log records) is appended to a trace. *)

From Stdlib Require Import ZArith String Ascii List Bool Lia.
From stdpp Require Import base option list gmap strings.

Local Open Scope Z_scope.

(** ** Machine integers and time *)

Module Int64.

Definition min : Z := - 2 ^ 63.
Definition max : Z := 2 ^ 63 - 1.

Definition in_range (z : Z) : Prop := min <= z <= max.

(** Two's complement wrap-around of Go's [int64] arithmetic. *)
Definition wrap (z : Z) : Z := (z + 2 ^ 63) mod 2 ^ 64 - 2 ^ 63.

Definition sub (a b : Z) : Z := wrap (a - b).

End Int64.

(** [time.Duration] is an [int64] count of nanoseconds. *)
Definition Duration : Type := Z.

(** [time.Time] (and [metav1.Time], which embeds it): an instant, counted
    here in nanoseconds from the Unix epoch.  Go's instants range far beyond
    what a [Duration] can measure, hence an unbounded integer. *)
Definition Time : Type := Z.

Definition Second : Duration := 1000000000.

(** The zero value of [time.Time]: January 1, year 1, 00:00 UTC. *)
Definition zeroTime : Time := -62135596800 * Second.

(** [t.Sub(u)]: the difference, saturated to the range of [Duration]. *)
Definition Time_Sub (t u : Time) : Duration :=
  if t - u <? Int64.min then Int64.min
  else if Int64.max <? t - u then Int64.max
  else t - u.

(** [t.Add(d)]. *)
Definition Time_Add (t : Time) (d : Duration) : Time := t + d.

(** ** Errors *)

(** Go [error] values as the package builds them: [fmt.Errorf] without a
    [%w] verb yields a plain message, with [%w] it yields a message together
    with the wrapped error, which [Unwrap] gives back. *)
Inductive error : Type :=
| errorString (msg : string)
| wrapError (msg : string) (err : error).

Definition Error (e : error) : string :=
  match e with
  | errorString msg => msg
  | wrapError msg _ => msg
  end.

Definition Unwrap (e : error) : option error :=
  match e with
  | errorString _ => None
  | wrapError _ err => Some err
  end.

#[global] Instance error_eq_dec : EqDecision error.
Proof. solve_decision. Defined.

(** [errors.Is]: walk the chain of wrapped errors looking for [target].
    Equality of the modelled values stands for Go's comparison of the two
    error values. *)
Fixpoint errors_Is (e target : error) : bool :=
  if bool_decide (e = target) then true
  else match e with
       | errorString _ => false
       | wrapError _ err => errors_Is err target
       end.

(** ** Strings *)

(** [strings.HasPrefix] and [strings.Contains]. *)
Fixpoint HasPrefix (s p : string) {struct p} : bool :=
  match p, s with
  | EmptyString, _ => true
  | String c p', String d s' => if Ascii.eqb c d then HasPrefix s' p' else false
  | String _ _, EmptyString => false
  end.

Fixpoint Contains (s sub : string) : bool :=
  if HasPrefix s sub then true
  else match s with
       | EmptyString => false
       | String _ s' => Contains s' sub
       end.

(** ** Constants of the package *)

(** [type Op string] and its three values. *)
Definition Op : Type := string.
Definition CreateOp : Op := "create".
Definition UpdateOp : Op := "update".
Definition DeleteOp : Op := "delete".

(** conditions.go *)
Definition KonnectEntityProgrammedConditionType : string := "Programmed".
Definition KonnectEntityProgrammedReasonProgrammed : string := "Programmed".
Definition KonnectEntityProgrammedReasonKonnectAPIOpFailed : string := "KonnectAPIOpFailed".

(** [metav1.ConditionStatus] is a string type with three named values. *)
Definition ConditionTrue : string := "True".
Definition ConditionFalse : string := "False".
Definition ConditionUnknown : string := "Unknown".

(** ** Data model *)

(** [metav1.Condition]. *)
Record Condition : Type := mkCondition {
  Type_ : string;
  Status : string;
  ObservedGeneration : Z;
  LastTransitionTime : Time;
  Reason : string;
  Message : string
}.

(** The zero value [metav1.Condition{}]. *)
Definition zeroCondition : Condition :=
  mkCondition "" "" 0 zeroTime "" "".

(** [konnectv1alpha1.KonnectEntityStatus]. *)
Record KonnectEntityStatus : Type := mkKonnectEntityStatus {
  ID : string;
  ServerURL : string;
  OrgID : string
}.

(** What the core can see of an entity through [EntityType]: its object
    metadata, its conditions and its Konnect status (a pointer that may be
    nil).  The kind-specific rest of the object is the adapters' business. *)
Record Entity : Type := mkEntity {
  Namespace : string;
  Name : string;
  Generation : Z;
  Conditions : list Condition;
  KonnectStatus : option KonnectEntityStatus
}.

(** The type parameter [T].  [SupportedKonnectEntityType] admits the first
    five; [OtherKind] stands for a type outside that union, which is what the
    [default] branches of the type switches are written for.  It carries the
    name that the verb [%T] prints for a pointer to it. *)
Inductive EntityKind : Type :=
| KonnectControlPlane
| KongService
| KongRoute
| KongConsumer
| KongConsumerGroup
| OtherKind (goType : string).

Definition supported (T : EntityKind) : bool :=
  match T with
  | OtherKind _ => false
  | _ => true
  end.

(** What [%T] prints for a value of type [*T]: the package name of the
    import and the type name. *)
Definition typeString (T : EntityKind) : string :=
  match T with
  | KonnectControlPlane => "*v1alpha1.KonnectControlPlane"
  | KongService => "*v1alpha1.KongService"
  | KongRoute => "*v1alpha1.KongRoute"
  | KongConsumer => "*v1.KongConsumer"
  | KongConsumerGroup => "*v1beta1.KongConsumerGroup"
  | OtherKind goType => goType
  end.

(** [types.NamespacedName], what [client.ObjectKeyFromObject] returns, with
    its [String] method. *)
Record NamespacedName : Type := mkNamespacedName {
  nnNamespace : string;
  nnName : string
}.

Definition ObjectKeyFromObject (ent : Entity) : NamespacedName :=
  mkNamespacedName (Namespace ent) (Name ent).

Definition NamespacedName_String (n : NamespacedName) : string :=
  nnNamespace n +:+ "/" +:+ nnName n.

(** What [%T] prints for a [types.NamespacedName]. *)
Definition NamespacedName_typeString : string := "types.NamespacedName".

(** [ctrl.Result]. *)
Record Result : Type := mkResult {
  Requeue : bool;
  RequeueAfter : Duration
}.

Definition emptyResult : Result := mkResult false 0.

(** Accessors of [EntityType]. *)
Definition GetConditions (ent : Entity) : list Condition := Conditions ent.
Definition GetGeneration (ent : Entity) : Z := Generation ent.
Definition GetKonnectStatus (ent : Entity) : option KonnectEntityStatus := KonnectStatus ent.

(** Modelled from the spec: the search behind [k8sutils.GetCondition], whose
    file is not among the sources.  The first condition of the given type
    and [true], or the zero condition and [false] when there is none. *)
Fixpoint findCondition (cType : string) (cs : list Condition) : Condition * bool :=
  match cs with
  | [] => (zeroCondition, false)
  | c :: cs' => if String.eqb (Type_ c) cType then (c, true) else findCondition cType cs'
  end.

(** Modelled from the spec: [k8sutils.GetCondition], the condition store's
    [getCondition(type) -> (Condition, found)], applied to the conditions of
    the entity. *)
Definition GetCondition (cType : string) (ent : Entity) : Condition * bool :=
  findCondition cType (GetConditions ent).

(** ** The world a call runs in *)

(** A location of the entity store; a Go pointer is [Some l] or nil. *)
Definition loc : Type := positive.
Definition handle : Type := option loc.

(** What a call leaves behind for an observer. *)
Inductive Event : Type :=
| EvAdapter (op : Op) (T : EntityKind) (e : handle)
| EvDebug (msg : string) (e : handle) (last_update : Time)
    (time_from_last_update requeue_after : Duration) (requeue_at : Time)
| EvInfo (msg : string) (op : Op) (duration : Duration) (type : string) (konnect_id : string).

Definition isAdapterCall (ev : Event) : bool :=
  match ev with EvAdapter _ _ _ => true | _ => false end.

Definition isTelemetry (ev : Event) : bool :=
  match ev with EvInfo _ _ _ _ _ => true | _ => false end.

(** The adapter invocations and the operation-telemetry records of a trace. *)
Definition adapterCalls (tr : list Event) : list Event := List.filter isAdapterCall tr.
Definition telemetry (tr : list Event) : list Event := List.filter isTelemetry tr.

(** [Remote] is whatever lies beyond the core: the Konnect API and the
    cluster, which only adapters touch.  [reads] counts the clock readings
    taken so far. *)
Record World (Remote : Type) : Type := mkWorld {
  heap : gmap loc Entity;
  remote : Remote;
  reads : nat;
  trace : list Event
}.
Arguments mkWorld {Remote} _ _ _ _.
Arguments heap {Remote} _.
Arguments remote {Remote} _.
Arguments reads {Remote} _.
Arguments trace {Remote} _.

(** A call returns a value or panics (a nil dereference). *)
Inductive Outcome (W A : Type) : Type :=
| Returns (a : A) (w : W)
| Panics (w : W).
Arguments Returns {W A} _ _.
Arguments Panics {W A} _.

Definition worldOf {W A} (o : Outcome W A) : W :=
  match o with Returns _ w => w | Panics w => w end.

Definition returned {W A} (o : Outcome W A) : option A :=
  match o with Returns a _ => Some a | Panics _ => None end.

(** The three ways a call changes the world: a clock reading is consumed, an
    event is appended, an entity is written through its pointer (with what
    the adapter did on the remote side). *)
Definition tick {Remote} (w : World Remote) : World Remote :=
  mkWorld (heap w) (remote w) (S (reads w)) (trace w).

Definition record {Remote} (ev : Event) (w : World Remote) : World Remote :=
  mkWorld (heap w) (remote w) (reads w) (trace w ++ [ev]).

Definition store {Remote} (l : loc) (ent : Entity) (r : Remote) (w : World Remote) : World Remote :=
  mkWorld (<[l := ent]> (heap w)) r (reads w) (trace w).

(** A kind-specific adapter ([createService], [updateRoute], ...): given the
    entity behind the pointer it may rewrite it, acts on the remote side, and
    reports an error or nil. *)
Definition Adapter (Remote : Type) : Type :=
  Entity -> Remote -> Entity * Remote * option error.

Record Adapters (Remote : Type) : Type := mkAdapters {
  createControlPlane : Adapter Remote;
  createService : Adapter Remote;
  createRoute : Adapter Remote;
  createConsumer : Adapter Remote;
  createConsumerGroup : Adapter Remote;
  deleteControlPlane : Adapter Remote;
  deleteService : Adapter Remote;
  deleteRoute : Adapter Remote;
  deleteConsumer : Adapter Remote;
  deleteConsumerGroup : Adapter Remote;
  updateControlPlane : Adapter Remote;
  updateService : Adapter Remote;
  updateRoute : Adapter Remote;
  updateConsumer : Adapter Remote;
  updateConsumerGroup : Adapter Remote
}.
Arguments createControlPlane {Remote} _.
Arguments createService {Remote} _.
Arguments createRoute {Remote} _.
Arguments createConsumer {Remote} _.
Arguments createConsumerGroup {Remote} _.
Arguments deleteControlPlane {Remote} _.
Arguments deleteService {Remote} _.
Arguments deleteRoute {Remote} _.
Arguments deleteConsumer {Remote} _.
Arguments deleteConsumerGroup {Remote} _.
Arguments updateControlPlane {Remote} _.
Arguments updateService {Remote} _.
Arguments updateRoute {Remote} _.
Arguments updateConsumer {Remote} _.
Arguments updateConsumerGroup {Remote} _.

Declare Scope go_scope.
Delimit Scope go_scope with go.

Section Core.

(** The surroundings of the core. *)
Variable Remote : Type.
(** The adapters, supplied by the rest of the package. *)
Variable A : Adapters Remote.
(** The n-th reading of the wall clock. *)
Variable wallclock : nat -> Time.
(** [GetKonnectID] called on a nil status pointer: the accessor belongs to
    the API module; [None] when it panics on a nil receiver, [Some s] when
    it answers [s]. *)
Variable nilKonnectID : option string.
(** [entityTypeName[T]()], which asks the API type for its name. *)
Variable entityTypeName : EntityKind -> string.
(** What [%q] prints for a pointer to an entity: package fmt walks the whole
    API struct, which is declared outside this package. *)
Variable fmtQuoted : Entity -> string.

Definition M (X : Type) : Type := World Remote -> Outcome (World Remote) X.

Definition ret {X} (x : X) : M X := fun w => Returns x w.

Definition bind {X Y} (m : M X) (k : X -> M Y) : M Y :=
  fun w => match m w with
           | Returns x w' => k x w'
           | Panics w' => Panics w'
           end.

Definition panic {X} : M X := fun w => Panics w.

Notation "'let*' x ':=' c1 'in' c2" := (bind c1 (fun x => c2))
  (at level 10, x name, c1 at level 100, c2 at level 200) : go_scope.
Local Open Scope go_scope.

(** [defer d] followed by [body]: [d] runs when [body] is left, whether it
    returned or panicked, and a panic goes on after it. *)
Definition defer {X} (d : M unit) (body : M X) : M X :=
  fun w => match body w with
           | Returns x w' =>
               match d w' with
               | Returns _ w'' => Returns x w''
               | Panics w'' => Panics w''
               end
           | Panics w' => Panics (worldOf (d w'))
           end.

(** Dereference of an entity pointer. *)
Definition load (e : handle) : M Entity :=
  fun w => match e with
           | None => Panics w
           | Some l => match heap w !! l with
                       | Some ent => Returns ent w
                       | None => Panics w
                       end
           end.

(** Writing to the log, or calling an adapter, leaves an event. *)
Definition emit (ev : Event) : M unit :=
  fun w => Returns tt (record ev w).

(** [time.Now()] takes the next reading of the clock. *)
Definition time_Now : M Time :=
  fun w => Returns (wallclock (reads w)) (tick w).

(** [time.Since(t)] is [time.Now().Sub(t)]. *)
Definition time_Since (t : Time) : M Duration :=
  let* now := time_Now in ret (Time_Sub now t).

(** [s.GetKonnectID()] on a status pointer: the identifier, if the call
    answers. *)
Definition konnectID (s : option KonnectEntityStatus) : option string :=
  match s with
  | Some st => Some (ID st)
  | None => nilKonnectID
  end.

Definition GetKonnectID (s : option KonnectEntityStatus) : M string :=
  match konnectID s with
  | Some v => ret v
  | None => panic
  end.

(** A call of an adapter on the entity behind [e]: the invocation is
    recorded, the adapter's rewriting of the entity is stored back through
    the pointer, and its error is the result.  Adapters dereference their
    entity, so a nil pointer panics. *)
Definition invoke (f : Adapter Remote) (op : Op) (T : EntityKind) (e : handle) : M (option error) :=
  let* _ := emit (EvAdapter op T e) in
  let* ent := load e in
  fun w =>
    let '(ent', r', err) := f ent (remote w) in
    match e with
    | Some l => Returns err (store l ent' r' w)
    | None => Panics w
    end.

(** [logOpComplete]. *)
Definition logOpComplete (T : EntityKind) (start : Time) (op : Op) (e : handle) : M unit :=
  let* ent := load e in
  match GetKonnectStatus ent with
  | None => ret tt
  | Some st =>
      let* duration := time_Since start in
      emit (EvInfo "operation in Konnect API complete" op duration (entityTypeName T) (ID st))
  end.

(** [wrapErrIfKonnectOpFailed].  The verbs of the second format are [%s %T
    %q %w] and its operands are [op], the object key, [e] and [err], in that
    order: [%T] prints the type of the key and [%q] prints the entity. *)
Definition wrapErrIfKonnectOpFailed (T : EntityKind) (err : option error) (op : Op) (e : handle)
  : M (option error) :=
  match err with
  | Some err' =>
      match e with
      | None =>
          ret (Some (wrapError
            ("failed to " +:+ op +:+ " for " +:+ typeString T +:+ ": " +:+ Error err') err'))
      | Some _ =>
          let* ent := load e in
          let _ := ObjectKeyFromObject ent in
          ret (Some (wrapError
            ("failed to " +:+ op +:+ " for " +:+ NamespacedName_typeString +:+ " "
               +:+ fmtQuoted ent +:+ ": " +:+ Error err') err'))
      end
  | None => ret None
  end.

(** [Create]. *)
Definition Create (T : EntityKind) (e : handle) : M (handle * option error) :=
  let* start := time_Now in
  defer (logOpComplete T start CreateOp e)
    match T with
    | KonnectControlPlane =>
        let* err := invoke (createControlPlane A) CreateOp T e in ret (e, err)
    | KongService =>
        let* err := invoke (createService A) CreateOp T e in ret (e, err)
    | KongRoute =>
        let* err := invoke (createRoute A) CreateOp T e in ret (e, err)
    | KongConsumer =>
        let* err := invoke (createConsumer A) CreateOp T e in ret (e, err)
    | KongConsumerGroup =>
        let* err := invoke (createConsumerGroup A) CreateOp T e in ret (e, err)
    | OtherKind _ =>
        ret (None, Some (errorString ("unsupported entity type " +:+ typeString T)))
    end.

(** [Delete]. *)
Definition Delete (T : EntityKind) (e : handle) : M (option error) :=
  let* ent := load e in
  let* id := GetKonnectID (GetKonnectStatus ent) in
  if String.eqb id "" then
    ret (Some (errorString
      ("can't delete " +:+ typeString T +:+ " "
         +:+ NamespacedName_String (ObjectKeyFromObject ent)
         +:+ " when it does not have the Konnect ID")))
  else
    let* start := time_Now in
    defer (logOpComplete T start DeleteOp e)
      match T with
      | KonnectControlPlane => invoke (deleteControlPlane A) DeleteOp T e
      | KongService => invoke (deleteService A) DeleteOp T e
      | KongRoute => invoke (deleteRoute A) DeleteOp T e
      | KongConsumer => invoke (deleteConsumer A) DeleteOp T e
      | KongConsumerGroup => invoke (deleteConsumerGroup A) DeleteOp T e
      | OtherKind _ =>
          ret (Some (errorString ("unsupported entity type " +:+ typeString T)))
      end.

(** [Update]. *)
Definition Update (T : EntityKind) (syncPeriod : Duration) (e : handle)
  : M (Result * option error) :=
  let* ent := load e in
  let '(condProgrammed, ok) := GetCondition KonnectEntityProgrammedConditionType ent in
  let* now := time_Now in
  let* timeFromLastUpdate := time_Since (LastTransitionTime condProgrammed) in
  if ok
     && String.eqb (Status condProgrammed) ConditionTrue
     && String.eqb (Reason condProgrammed) KonnectEntityProgrammedReasonProgrammed
     && (ObservedGeneration condProgrammed =? GetGeneration ent)
     && (timeFromLastUpdate <=? syncPeriod)
  then
    let requeueAfter := Int64.sub syncPeriod timeFromLastUpdate in
    let* _ := emit (EvDebug "no need for update, requeueing after configured sync period" e
                      (LastTransitionTime condProgrammed) timeFromLastUpdate requeueAfter
                      (Time_Add now requeueAfter)) in
    ret (mkResult false requeueAfter, None)
  else
    let* id := GetKonnectID (GetKonnectStatus ent) in
    if String.eqb id "" then
      ret (emptyResult, Some (errorString
        ("can't update " +:+ typeString T +:+ " "
           +:+ NamespacedName_String (ObjectKeyFromObject ent)
           +:+ " when it does not have the Konnect ID")))
    else
      defer (logOpComplete T now UpdateOp e)
        match T with
        | KonnectControlPlane =>
            let* err := invoke (updateControlPlane A) UpdateOp T e in ret (emptyResult, err)
        | KongService =>
            let* err := invoke (updateService A) UpdateOp T e in ret (emptyResult, err)
        | KongRoute =>
            let* err := invoke (updateRoute A) UpdateOp T e in ret (emptyResult, err)
        | KongConsumer =>
            let* err := invoke (updateConsumer A) UpdateOp T e in ret (emptyResult, err)
        | KongConsumerGroup =>
            let* err := invoke (updateConsumerGroup A) UpdateOp T e in ret (emptyResult, err)
        | OtherKind _ =>
            ret (emptyResult, Some (errorString ("unsupported entity type " +:+ typeString T)))
        end.

(** *** What a call leaves behind *)

(** The world after [logOpComplete] ran on the entity [ent]. *)
Definition afterLog (T : EntityKind) (start : Time) (op : Op) (ent : Entity)
    (w : World Remote) : World Remote :=
  match KonnectStatus ent with
  | None => w
  | Some st =>
      record (EvInfo "operation in Konnect API complete" op
                (Time_Sub (wallclock (reads w)) start) (entityTypeName T) (ID st))
             (tick w)
  end.

(** The world after the adapter [f] was called on the entity [ent] behind
    [l] and the deferred [logOpComplete] ran. *)
Definition afterDispatch (f : Adapter Remote) (T : EntityKind) (start : Time) (op : Op)
    (l : loc) (ent : Entity) (w : World Remote) : World Remote :=
  afterLog T start op (f ent (remote w)).1.1
    (store l (f ent (remote w)).1.1 (f ent (remote w)).1.2
       (record (EvAdapter op T (Some l)) w)).

(** *** The adapter binding, read off the type switches *)

Definition createAdapter (T : EntityKind) : option (Adapter Remote) :=
  match T with
  | KonnectControlPlane => Some (createControlPlane A)
  | KongService => Some (createService A)
  | KongRoute => Some (createRoute A)
  | KongConsumer => Some (createConsumer A)
  | KongConsumerGroup => Some (createConsumerGroup A)
  | OtherKind _ => None
  end.

Definition deleteAdapter (T : EntityKind) : option (Adapter Remote) :=
  match T with
  | KonnectControlPlane => Some (deleteControlPlane A)
  | KongService => Some (deleteService A)
  | KongRoute => Some (deleteRoute A)
  | KongConsumer => Some (deleteConsumer A)
  | KongConsumerGroup => Some (deleteConsumerGroup A)
  | OtherKind _ => None
  end.

Definition updateAdapter (T : EntityKind) : option (Adapter Remote) :=
  match T with
  | KonnectControlPlane => Some (updateControlPlane A)
  | KongService => Some (updateService A)
  | KongRoute => Some (updateRoute A)
  | KongConsumer => Some (updateConsumer A)
  | KongConsumerGroup => Some (updateConsumerGroup A)
  | OtherKind _ => None
  end.

End Core.

Arguments konnectID nilKonnectID s : assert.

(** ** The vocabulary of the specification *)

(** The staleness gate in the specification's words.  [Programmed ent c]:
    the entity has the Programmed condition [c], whose status is true, whose
    reason is the canonical one, and whose observed generation is the
    entity's generation.  [Fresh ent syncPeriod t]: moreover, at the clock
    reading [t], the time elapsed since the last transition of [c], as
    [time.Since] measures it, is at most [syncPeriod]. *)
Definition Programmed (ent : Entity) (c : Condition) : Prop :=
  GetCondition KonnectEntityProgrammedConditionType ent = (c, true)
  /\ Status c = ConditionTrue
  /\ Reason c = KonnectEntityProgrammedReasonProgrammed
  /\ ObservedGeneration c = GetGeneration ent.

Definition Fresh (ent : Entity) (syncPeriod : Duration) (t : Time) : Prop :=
  exists c, Programmed ent c /\ Time_Sub t (LastTransitionTime c) <= syncPeriod.

(** The test that [Update] makes, and the delay it then returns. *)
Definition freshb (ent : Entity) (syncPeriod : Duration) (t : Time) : bool :=
  let '(c, ok) := GetCondition KonnectEntityProgrammedConditionType ent in
  ok
  && String.eqb (Status c) ConditionTrue
  && String.eqb (Reason c) KonnectEntityProgrammedReasonProgrammed
  && (ObservedGeneration c =? GetGeneration ent)
  && (Time_Sub t (LastTransitionTime c) <=? syncPeriod).

(** The time elapsed at [t] since the last transition of the Programmed
    condition, as [time.Since] measures it. *)
Definition elapsed (ent : Entity) (t : Time) : Duration :=
  Time_Sub t (LastTransitionTime (GetCondition KonnectEntityProgrammedConditionType ent).1).

Definition requeueHint (ent : Entity) (syncPeriod : Duration) (t : Time) : Duration :=
  Int64.sub syncPeriod (elapsed ent t).

Definition skipped (e : handle) (ent : Entity) (syncPeriod : Duration) (now t : Time) : Event :=
  EvDebug "no need for update, requeueing after configured sync period" e
    (LastTransitionTime (GetCondition KonnectEntityProgrammedConditionType ent).1)
    (elapsed ent t) (requeueHint ent syncPeriod t)
    (Time_Add now (requeueHint ent syncPeriod t)).

(** A call left the store and the remote side alone and called no adapter. *)
Definition untouched {Remote} (w w' : World Remote) : Prop :=
  heap w' = heap w /\ remote w' = remote w
  /\ adapterCalls (trace w') = adapterCalls (trace w).

(** A call invoked the adapter [f] once on the entity [ent] behind [l], and
    changed the store and the remote side by that and nothing else. *)
Definition writtenBy {Remote} (f : Adapter Remote) (op : Op) (T : EntityKind) (l : loc)
    (ent : Entity) (w w' : World Remote) : Prop :=
  heap w' = <[l := (f ent (remote w)).1.1]> (heap w)
  /\ remote w' = (f ent (remote w)).1.2
  /\ adapterCalls (trace w') = adapterCalls (trace w) ++ [EvAdapter op T (Some l)].

(** How many records [logOpComplete] writes for an entity: one, or none
    when its Konnect status is nil. *)
Definition recordsFor (ent : Entity) : nat :=
  match KonnectStatus ent with
  | Some _ => 1%nat
  | None => 0%nat
  end.

(** The same entity after a change of its spec. *)
Definition bumpGeneration (ent : Entity) : Entity :=
  mkEntity (Namespace ent) (Name ent) (Generation ent + 1) (Conditions ent) (KonnectStatus ent).

(** The two errors the core raises itself. *)
Definition MissingRemoteIdentity (op : Op) (T : EntityKind) (ent : Entity) : error :=
  errorString ("can't " +:+ op +:+ " " +:+ typeString T +:+ " "
                 +:+ NamespacedName_String (ObjectKeyFromObject ent)
                 +:+ " when it does not have the Konnect ID").

Definition UnsupportedKind (T : EntityKind) : error :=
  errorString ("unsupported entity type " +:+ typeString T).

(** The two formats of the error normalizer. *)
Definition shortForm (op : Op) (typeSegment cause : string) : string :=
  "failed to " +:+ op +:+ " for " +:+ typeSegment +:+ ": " +:+ cause.

Definition longForm (op : Op) (typeSegment quotedSegment cause : string) : string :=
  "failed to " +:+ op +:+ " for " +:+ typeSegment +:+ " " +:+ quotedSegment +:+ ": " +:+ cause.

(** ** A concrete setting

    A clock that ticks once a second, adapters that succeed (creation assigns
    the identifier abc) or fail deterministically, and a few entities. *)
Module Sample.

Definition t0 : Time := 1700000000 * Second.

Definition clock (n : nat) : Time := t0 + Z.of_nat n * Second.

(** The remote side counts the calls made to it. *)
Definition Remote : Type := nat.

Definition succeed : Adapter Remote := fun ent r => (ent, S r, None).

Definition assignID : Adapter Remote :=
  fun ent r =>
    (mkEntity (Namespace ent) (Name ent) (Generation ent) (Conditions ent)
       (Some (mkKonnectEntityStatus "abc" "" "")), S r, None).

Definition boom : error := errorString "boom".

Definition fail : Adapter Remote := fun ent r => (ent, S r, Some boom).

Definition working : Adapters Remote :=
  mkAdapters Remote assignID assignID assignID assignID assignID
    succeed succeed succeed succeed succeed
    succeed succeed succeed succeed succeed.

Definition failing : Adapters Remote :=
  mkAdapters Remote fail fail fail fail fail fail fail fail fail fail fail fail fail fail fail.

Definition typeName (T : EntityKind) : string :=
  match T with
  | KonnectControlPlane => "KonnectControlPlane"
  | KongService => "KongService"
  | KongRoute => "KongRoute"
  | KongConsumer => "KongConsumer"
  | KongConsumerGroup => "KongConsumerGroup"
  | OtherKind goType => goType
  end.

Definition dquote : string := String (ascii_of_nat 34) EmptyString.

Definition quoted (s : string) : string := dquote +:+ s +:+ dquote.

(** A stand-in for what [%q] prints for an entity: the fields modelled here,
    each quoted, between braces. *)
Definition dump (ent : Entity) : string :=
  "&{" +:+ quoted (Name ent) +:+ " " +:+ quoted (Namespace ent) +:+ " "
    +:+ match KonnectStatus ent with
        | Some st => "{" +:+ quoted (ID st) +:+ "}"
        | None => "<nil>"
        end +:+ "}".

Definition programmed (generation : Z) (at_ : Time) : Condition :=
  mkCondition KonnectEntityProgrammedConditionType ConditionTrue generation at_
    KonnectEntityProgrammedReasonProgrammed "".

(** A service that was programmed ten seconds before [t0]. *)
Definition svc : Entity :=
  mkEntity "default" "svc" 3 [programmed 3 (t0 - 10 * Second)]
    (Some (mkKonnectEntityStatus "abc" "" "")).

(** The same conditions on an entity whose identifier is empty. *)
Definition svcNoID : Entity :=
  mkEntity "default" "svc" 3 [programmed 3 (t0 - 10 * Second)]
    (Some (mkKonnectEntityStatus "" "" "")).

(** An entity that was never created remotely. *)
Definition svcNew : Entity :=
  mkEntity "default" "svc" 1 [] (Some (mkKonnectEntityStatus "" "" "")).

(** An entity without a Konnect status. *)
Definition svcBare : Entity :=
  mkEntity "default" "svc" 1 [] None.

(** A condition stamped three centuries ahead of the clock. *)
Definition svcAhead : Entity :=
  mkEntity "default" "svc" 3 [programmed 3 (t0 + 300 * 365 * 86400 * Second)]
    (Some (mkKonnectEntityStatus "abc" "" "")).

Definition world (ent : Entity) : World Remote :=
  mkWorld {[ 1%positive := ent ]} O O [].

Definition p : handle := Some 1%positive.

Definition minute : Duration := 60 * Second.

End Sample.

(** More of the same setting: an update adapter that marks the entity as
    programmed for its current generation, two seconds after [t0], and an
    entity whose last synchronization failed. *)
Module SampleSync.

Import Sample.

Definition reprogram : Adapter Remote :=
  fun ent r =>
    (mkEntity (Namespace ent) (Name ent) (Generation ent)
       [programmed (Generation ent) (t0 + 2 * Second)] (KonnectStatus ent), S r, None).

Definition syncing : Adapters Remote :=
  mkAdapters Remote assignID assignID assignID assignID assignID
    succeed succeed succeed succeed succeed
    reprogram reprogram reprogram reprogram reprogram.

Definition failedCondition : Condition :=
  mkCondition KonnectEntityProgrammedConditionType ConditionTrue 3 (t0 - 10 * Second)
    KonnectEntityProgrammedReasonKonnectAPIOpFailed "".

Definition svcFailed : Entity :=
  mkEntity "default" "svc" 3 [failedCondition] (Some (mkKonnectEntityStatus "abc" "" "")).

(** The world of [world], some clock readings later. *)
Definition later (ent : Entity) : World Remote :=
  mkWorld {[ 1%positive := ent ]} O 5 [].

End SampleSync.


(** * Object metadata utilities

    Package [kubernetes], which the operations above take [GetCondition]
    from, also keeps the finalizers, labels and owner references of an
    object's metadata.  These functions work on the metadata alone. *)
Module k8sutils.

(** A Go slice is nil or holds elements; ranging over a nil slice visits
    nothing and appending to it allocates. *)
Definition elems {X} (s : option (list X)) : list X := default [] s.

(** A Go map of strings, nil or allocated; reading a nil map finds nothing. *)
Definition gomap : Type := option (gmap string string).

Definition entries (m : gomap) : gmap string string := default ∅ m.

(** [metav1.OwnerReference]; [Controller] and [BlockOwnerDeletion] are
    pointers to booleans. *)
Record OwnerReference : Type := mkOwnerReference {
  refAPIVersion : string;
  refKind : string;
  refName : string;
  refUID : string;
  refController : option bool;
  refBlockOwnerDeletion : option bool
}.

#[global] Instance OwnerReference_eq_dec : EqDecision OwnerReference.
Proof. solve_decision. Defined.

(** [metav1.ObjectMeta], the fields these functions read or write and the
    names of the object; [DeepCopy] carries every field over. *)
Record ObjectMeta : Type := mkObjectMeta {
  Name : string;
  Namespace : string;
  Labels : gomap;
  Annotations : gomap;
  OwnerReferences : option (list OwnerReference);
  Finalizers : option (list string)
}.

Definition setFinalizers (m : ObjectMeta) (fs : option (list string)) : ObjectMeta :=
  mkObjectMeta (Name m) (Namespace m) (Labels m) (Annotations m) (OwnerReferences m) fs.

Definition SetOwnerReferences (m : ObjectMeta) (refs : option (list OwnerReference)) : ObjectMeta :=
  mkObjectMeta (Name m) (Namespace m) (Labels m) (Annotations m) refs (Finalizers m).

Definition setLabels (m : ObjectMeta) (labels : gomap) : ObjectMeta :=
  mkObjectMeta (Name m) (Namespace m) labels (Annotations m) (OwnerReferences m) (Finalizers m).

(** [schema.GroupVersionKind], what [obj.GetObjectKind().GroupVersionKind()]
    gives. *)
Record GroupVersionKind : Type := mkGroupVersionKind {
  Group : string;
  Version : string;
  Kind : string
}.

(** [GetAPIVersionForObject]. *)
Definition GetAPIVersionForObject (obj : GroupVersionKind) : string :=
  Group obj +:+ "/" +:+ Version obj.

(** The loop of [EnsureFinalizerInMetadata]: leave at the first match. *)
Fixpoint finalizerExists (fs : list string) (finalizer : string) : bool :=
  match fs with
  | [] => false
  | f :: fs' => if String.eqb f finalizer then true else finalizerExists fs' finalizer
  end.

(** [EnsureFinalizerInMetadata]: the flag it returns and the metadata it
    leaves behind the pointer. *)
Definition EnsureFinalizerInMetadata (metadata : ObjectMeta) (finalizer : string)
  : bool * ObjectMeta :=
  if finalizerExists (elems (Finalizers metadata)) finalizer then (false, metadata)
  else (true, setFinalizers metadata (Some (elems (Finalizers metadata) ++ [finalizer]))).

(** The loop of [RemoveFinalizerInMetadata], with its two variables. *)
Fixpoint removeLoop (fs : list string) (finalizer : string)
    (newFinalizers : list string) (changed : bool) : list string * bool :=
  match fs with
  | [] => (newFinalizers, changed)
  | f :: fs' =>
      if String.eqb f finalizer then removeLoop fs' finalizer newFinalizers true
      else removeLoop fs' finalizer (newFinalizers ++ [f]) changed
  end.

(** [RemoveFinalizerInMetadata]. *)
Definition RemoveFinalizerInMetadata (metadata : ObjectMeta) (finalizer : string)
  : bool * ObjectMeta :=
  let '(newFinalizers, changed) := removeLoop (elems (Finalizers metadata)) finalizer [] false in
  if changed then (changed, setFinalizers metadata (Some newFinalizers))
  else (changed, metadata).

(** [reflect.DeepEqual] on owner references and on label maps: equality of
    the values, a nil slice or map being different from an empty one. *)
Definition DeepEqual {X} `{EqDecision X} (a b : X) : bool := bool_decide (a = b).

(** [newObjectMeta.Labels[k] = v] inside the loop over the generated
    labels.  The outer [None] is the panic of a write to a nil map. *)
Definition assignLabel (k v : string) (labels : option gomap) : option gomap :=
  match labels with
  | Some (Some m) => Some (Some (<[k := v]> m))
  | Some None => None
  | None => None
  end.

Definition copyLabels (generated : gomap) (labels : gomap) : option gomap :=
  map_fold assignLabel (Some labels) (entries generated).

(** [EnsureObjectMetaIsUpdated]; [None] when it panics. *)
Definition EnsureObjectMetaIsUpdated (existingObjMeta generatedObjMeta : ObjectMeta)
  : option (bool * ObjectMeta) :=
  let newObjectMeta := SetOwnerReferences existingObjMeta (OwnerReferences generatedObjMeta) in
  match copyLabels (Labels generatedObjMeta) (Labels newObjectMeta) with
  | None => None
  | Some labels =>
      let newObjectMeta := setLabels newObjectMeta labels in
      if negb (DeepEqual (OwnerReferences existingObjMeta) (OwnerReferences newObjectMeta))
         || negb (DeepEqual (Labels existingObjMeta) (Labels newObjectMeta))
      then Some (true, newObjectMeta)
      else Some (false, newObjectMeta)
  end.

(** The filter that [RemoveFinalizerInMetadata] amounts to. *)
Definition without (finalizer : string) (fs : list string) : list string :=
  List.filter (fun f => negb (String.eqb f finalizer)) fs.

(** Sample metadata. *)
Definition owner : OwnerReference :=
  mkOwnerReference "gateway-operator.konghq.com/v1beta1" "DataPlane" "dp" "uid-1" (Some true) None.

Definition existing : ObjectMeta :=
  mkObjectMeta "svc" "default" (Some {[ "app" := "old"; "team" := "core" ]}) None
    (Some []) (Some ["cleanup"]).

Definition generated : ObjectMeta :=
  mkObjectMeta "svc" "default" (Some {[ "app" := "new" ]}) None (Some [owner]) None.

Definition bare : ObjectMeta :=
  mkObjectMeta "svc" "default" None None None None.

End k8sutils.

(** * Facts *)

(** ** Integers, time, strings, errors *)

Lemma Int64_wrap_in_range z : Int64.in_range (Int64.wrap z).
Proof.
  unfold Int64.in_range, Int64.wrap, Int64.min, Int64.max.
  pose proof (Z.mod_pos_bound (z + 2 ^ 63) (2 ^ 64)). lia.
Qed.

Lemma Int64_wrap_small z : Int64.in_range z -> Int64.wrap z = z.
Proof.
  unfold Int64.in_range, Int64.wrap, Int64.min, Int64.max. intros Hz.
  rewrite Z.mod_small by lia. lia.
Qed.

Lemma Int64_wrap_overflow z :
  Int64.max < z <= Int64.max + 2 ^ 64 -> Int64.wrap z = z - 2 ^ 64.
Proof.
  unfold Int64.wrap, Int64.max. intros Hz.
  replace (z + 2 ^ 63) with ((z + 2 ^ 63 - 2 ^ 64) + 1 * 2 ^ 64) by lia.
  rewrite Z.mod_add by lia. rewrite Z.mod_small by lia. lia.
Qed.

Lemma Time_Sub_in_range t u : Int64.in_range (Time_Sub t u).
Proof.
  unfold Time_Sub, Int64.in_range.
  destruct (Z.ltb_spec (t - u) Int64.min); [unfold Int64.min, Int64.max; lia|].
  destruct (Z.ltb_spec Int64.max (t - u)); [unfold Int64.min, Int64.max; lia|lia].
Qed.

Lemma Time_Sub_exact t u : Int64.in_range (t - u) -> Time_Sub t u = t - u.
Proof.
  unfold Time_Sub, Int64.in_range. intros [Hlo Hhi].
  destruct (Z.ltb_spec (t - u) Int64.min); [lia|].
  destruct (Z.ltb_spec Int64.max (t - u)); [lia|reflexivity].
Qed.

Lemma Time_Sub_mono t t' u : t <= t' -> Time_Sub t u <= Time_Sub t' u.
Proof.
  unfold Time_Sub. intros Ht.
  destruct (Z.ltb_spec (t - u) Int64.min), (Z.ltb_spec (t' - u) Int64.min),
    (Z.ltb_spec Int64.max (t - u)), (Z.ltb_spec Int64.max (t' - u));
    unfold Int64.min, Int64.max in *; lia.
Qed.

Lemma HasPrefix_app p rest : HasPrefix (p +:+ rest) p = true.
Proof.
  induction p as [|c p IH]; simpl; [reflexivity|].
  rewrite Ascii.eqb_refl. exact IH.
Qed.

Lemma Contains_app s pre post : Contains (pre +:+ s +:+ post) s = true.
Proof.
  induction pre as [|c pre IH]; simpl.
  - destruct (s +:+ post) eqn:E; simpl; rewrite <- E, HasPrefix_app; reflexivity.
  - destruct (HasPrefix _ _); [reflexivity|exact IH].
Qed.

Lemma HasPrefix_refl s : HasPrefix s s = true.
Proof. induction s as [|c s IH]; simpl; [reflexivity|]. rewrite Ascii.eqb_refl. exact IH. Qed.

Lemma Contains_refl s : Contains s s = true.
Proof. destruct s; simpl; [reflexivity|]. rewrite Ascii.eqb_refl, HasPrefix_refl. reflexivity. Qed.

Lemma Contains_append_r pre s sub : Contains s sub = true -> Contains (pre +:+ s) sub = true.
Proof.
  intros H. induction pre as [|c pre IH]; simpl; [exact H|].
  destruct (HasPrefix _ _); [reflexivity|exact IH].
Qed.

Lemma errors_Is_refl e : errors_Is e e = true.
Proof. destruct e; simpl; rewrite bool_decide_eq_true_2; reflexivity. Qed.

Lemma errors_Is_wrap msg cause : errors_Is (wrapError msg cause) cause = true.
Proof.
  simpl. destruct (bool_decide _); [reflexivity|apply errors_Is_refl].
Qed.

(** ** The condition store *)

Lemma findCondition_found cType cs c :
  findCondition cType cs = (c, true) -> In c cs /\ Type_ c = cType.
Proof.
  induction cs as [|d cs IH]; simpl; [discriminate|].
  destruct (String.eqb_spec (Type_ d) cType) as [E|E].
  - intros [= <-]. auto.
  - intros H. destruct (IH H). auto.
Qed.

Lemma findCondition_absent cType cs c :
  findCondition cType cs = (c, false) ->
  c = zeroCondition /\ forall d, In d cs -> Type_ d <> cType.
Proof.
  induction cs as [|d cs IH]; simpl.
  - intros [= <-]. split; [reflexivity|tauto].
  - destruct (String.eqb_spec (Type_ d) cType) as [E|E]; [discriminate|].
    intros H. destruct (IH H) as [-> Hall]. split; [reflexivity|].
    intros d' [<-|Hin]; auto.
Qed.

Lemma freshb_Fresh ent syncPeriod t :
  freshb ent syncPeriod t = true <-> Fresh ent syncPeriod t.
Proof.
  unfold freshb, Fresh, Programmed.
  destruct (GetCondition KonnectEntityProgrammedConditionType ent) as [c ok].
  rewrite !andb_true_iff, !String.eqb_eq, Z.eqb_eq, Z.leb_le. split.
  - intros [[[[-> Hs] Hr] Hg] Ht]. exists c. auto.
  - intros (c' & ([= <- ->] & Hs & Hr & Hg) & Ht). auto.
Qed.

Lemma Programmed_elapsed ent c t :
  Programmed ent c -> elapsed ent t = Time_Sub t (LastTransitionTime c).
Proof. unfold elapsed. intros (-> & _). reflexivity. Qed.

Lemma Programmed_Fresh ent c syncPeriod t :
  Programmed ent c ->
  (Fresh ent syncPeriod t <-> Time_Sub t (LastTransitionTime c) <= syncPeriod).
Proof.
  intros Hc. split.
  - intros (c' & Hc' & Ht). destruct Hc as (Hc & _), Hc' as (Hc' & _).
    assert (c' = c) by congruence. subst. exact Ht.
  - intros Ht. exists c. auto.
Qed.

(** What [time.Since] measures is compared with [syncPeriod] as the exact
    distance would be, for every [syncPeriod] below the largest [Duration]. *)
Lemma measured_elapsed_le_iff t u syncPeriod :
  Int64.min <= syncPeriod < Int64.max ->
  (Time_Sub t u <= syncPeriod <-> t - u <= syncPeriod).
Proof.
  intros Hsp. unfold Time_Sub.
  destruct (Z.ltb_spec (t - u) Int64.min); [lia|].
  destruct (Z.ltb_spec Int64.max (t - u)); lia.
Qed.

Lemma Fresh_elapsed ent syncPeriod t :
  Fresh ent syncPeriod t -> elapsed ent t <= syncPeriod.
Proof.
  intros (c & Hc & Ht). rewrite (Programmed_elapsed _ _ _ Hc). exact Ht.
Qed.

Lemma elapsed_in_range ent t : Int64.in_range (elapsed ent t).
Proof. apply Time_Sub_in_range. Qed.

Lemma requeueHint_exact ent syncPeriod t :
  Fresh ent syncPeriod t ->
  syncPeriod - elapsed ent t <= Int64.max ->
  requeueHint ent syncPeriod t = syncPeriod - elapsed ent t
  /\ 0 <= syncPeriod - elapsed ent t.
Proof.
  intros Hf Hmax. pose proof (Fresh_elapsed _ _ _ Hf) as Hle.
  unfold requeueHint, Int64.sub. split; [|lia].
  apply Int64_wrap_small. unfold Int64.in_range, Int64.min. lia.
Qed.

Lemma requeueHint_overflow ent syncPeriod t :
  Int64.in_range syncPeriod ->
  Fresh ent syncPeriod t ->
  Int64.max < syncPeriod - elapsed ent t ->
  requeueHint ent syncPeriod t < 0.
Proof.
  intros Hsp Hf Hover. pose proof (elapsed_in_range ent t) as He.
  unfold requeueHint, Int64.sub. rewrite Int64_wrap_overflow.
  - unfold Int64.in_range, Int64.min, Int64.max in *. lia.
  - unfold Int64.in_range, Int64.min, Int64.max in *. lia.
Qed.


Lemma not_Fresh_bumped ent syncPeriod t :
  Fresh ent syncPeriod t -> ~ Fresh (bumpGeneration ent) syncPeriod t.
Proof.
  intros (c & (Hc & _ & _ & Hg) & _) (c' & (Hc' & _ & _ & Hg') & _).
  unfold GetCondition, GetConditions, GetGeneration, bumpGeneration in *.
  simpl in *. assert (c' = c) by congruence. subst. lia.
Qed.

(** ** Traces *)

Lemma adapterCalls_app tr tr' :
  adapterCalls (tr ++ tr') = adapterCalls tr ++ adapterCalls tr'.
Proof. apply List.filter_app. Qed.

Lemma telemetry_app tr tr' :
  telemetry (tr ++ tr') = telemetry tr ++ telemetry tr'.
Proof. apply List.filter_app. Qed.


Section Facts.

Variable Remote : Type.
Variable A : Adapters Remote.
Variable wallclock : nat -> Time.
Variable nilKonnectID : option string.
Variable entityTypeName : EntityKind -> string.
Variable fmtQuoted : Entity -> string.

Abbreviation W := (World Remote).
Abbreviation logOpComplete' := (logOpComplete Remote wallclock entityTypeName).
Abbreviation afterLog' := (afterLog Remote wallclock entityTypeName).
Abbreviation afterDispatch' := (afterDispatch Remote wallclock entityTypeName).
Abbreviation Create' := (Create Remote A wallclock entityTypeName).
Abbreviation Delete' := (Delete Remote A wallclock nilKonnectID entityTypeName).
Abbreviation Update' := (Update Remote A wallclock nilKonnectID entityTypeName).
Abbreviation wrapErr' := (wrapErrIfKonnectOpFailed Remote fmtQuoted).

(** *** The effect of the telemetry routine and of an adapter call *)

Lemma logOpComplete_eq T start op l (w : W) ent :
  heap w !! l = Some ent ->
  logOpComplete' T start op (Some l) w = Returns tt (afterLog' T start op ent w).
Proof.
  intros H. unfold logOpComplete, afterLog, bind, load, GetKonnectStatus.
  rewrite H. destruct (KonnectStatus ent); reflexivity.
Qed.

Lemma invoke_eq f op T l (w : W) ent :
  heap w !! l = Some ent ->
  invoke Remote f op T (Some l) w =
  Returns (f ent (remote w)).2
    (store l (f ent (remote w)).1.1 (f ent (remote w)).1.2
       (record (EvAdapter op T (Some l)) w)).
Proof.
  intros H. unfold invoke, bind, emit, load. simpl. rewrite H.
  change (remote (record (EvAdapter op T (Some l)) w)) with (remote w).
  destruct (f ent (remote w)) as [[ent' r'] err]. reflexivity.
Qed.

Lemma dispatch_eq {X} f T start op l (w : W) ent (g : option error -> X) :
  heap w !! l = Some ent ->
  defer Remote (logOpComplete' T start op (Some l))
    (bind Remote (invoke Remote f op T (Some l)) (fun err => ret Remote (g err))) w =
  Returns (g (f ent (remote w)).2) (afterDispatch' f T start op l ent w).
Proof.
  intros H. unfold defer, bind at 1. rewrite (invoke_eq _ _ _ _ _ _ H).
  unfold ret. erewrite logOpComplete_eq; [reflexivity|].
  simpl. apply lookup_insert_eq.
Qed.

Lemma afterLog_heap T start op ent (w : W) : heap (afterLog' T start op ent w) = heap w.
Proof. unfold afterLog. destruct (KonnectStatus ent); reflexivity. Qed.

Lemma afterLog_remote T start op ent (w : W) : remote (afterLog' T start op ent w) = remote w.
Proof. unfold afterLog. destruct (KonnectStatus ent); reflexivity. Qed.

Lemma afterLog_adapterCalls T start op ent (w : W) :
  adapterCalls (trace (afterLog' T start op ent w)) = adapterCalls (trace w).
Proof.
  unfold afterLog. destruct (KonnectStatus ent); [|reflexivity].
  simpl. rewrite adapterCalls_app. simpl. apply app_nil_r.
Qed.

Lemma afterLog_nil_status T start op ent (w : W) :
  KonnectStatus ent = None -> afterLog' T start op ent w = w.
Proof. unfold afterLog. intros ->. reflexivity. Qed.

Lemma afterLog_telemetry T start op ent (w : W) :
  length (telemetry (trace (afterLog' T start op ent w))) =
  (length (telemetry (trace w)) + recordsFor ent)%nat.
Proof.
  unfold afterLog, recordsFor. destruct (KonnectStatus ent); [|simpl; lia].
  simpl. rewrite telemetry_app, List.length_app. reflexivity.
Qed.

Lemma afterDispatch_heap f T start op l ent (w : W) :
  heap (afterDispatch' f T start op l ent w) = <[l := (f ent (remote w)).1.1]> (heap w).
Proof. unfold afterDispatch. rewrite afterLog_heap. reflexivity. Qed.

Lemma afterDispatch_adapterCalls f T start op l ent (w : W) :
  adapterCalls (trace (afterDispatch' f T start op l ent w)) =
  adapterCalls (trace w) ++ [EvAdapter op T (Some l)].
Proof.
  unfold afterDispatch. rewrite afterLog_adapterCalls. simpl.
  rewrite adapterCalls_app. reflexivity.
Qed.

Lemma afterDispatch_telemetry f T start op l ent (w : W) :
  length (telemetry (trace (afterDispatch' f T start op l ent w))) =
  (length (telemetry (trace w)) + recordsFor (f ent (remote w)).1.1)%nat.
Proof.
  unfold afterDispatch. rewrite afterLog_telemetry. simpl.
  rewrite telemetry_app, List.length_app. simpl. lia.
Qed.

(** *** The three entry points, path by path *)

Lemma Create_eq T l (w : W) ent :
  heap w !! l = Some ent ->
  Create' T (Some l) w =
  match createAdapter Remote A T with
  | Some f =>
      Returns (Some l, (f ent (remote w)).2)
        (afterDispatch' f T (wallclock (reads w)) CreateOp l ent (tick w))
  | None =>
      Returns (None, Some (UnsupportedKind T))
        (afterLog' T (wallclock (reads w)) CreateOp ent (tick w))
  end.
Proof.
  intros H. unfold Create, bind at 1, time_Now.
  assert (H' : heap (tick w) !! l = Some ent) by exact H.
  destruct T; simpl createAdapter;
    try (rewrite (dispatch_eq _ _ _ _ _ _ _ (fun err => (Some l, err)) H'); reflexivity).
  unfold defer, ret. rewrite (logOpComplete_eq _ _ _ _ _ _ H'). reflexivity.
Qed.

Lemma Delete_eq T l (w : W) ent :
  heap w !! l = Some ent ->
  Delete' T (Some l) w =
  match konnectID nilKonnectID (KonnectStatus ent) with
  | None => Panics w
  | Some id =>
      if String.eqb id "" then Returns (Some (MissingRemoteIdentity DeleteOp T ent)) w
      else match deleteAdapter Remote A T with
           | Some f =>
               Returns (f ent (remote w)).2
                 (afterDispatch' f T (wallclock (reads w)) DeleteOp l ent (tick w))
           | None =>
               Returns (Some (UnsupportedKind T))
                 (afterLog' T (wallclock (reads w)) DeleteOp ent (tick w))
           end
  end.
Proof.
  intros H. unfold Delete, bind at 1, load. rewrite H.
  unfold bind at 1, GetKonnectID, GetKonnectStatus.
  destruct (konnectID nilKonnectID (KonnectStatus ent)) as [id|]; [|reflexivity].
  unfold ret at 1. destruct (String.eqb id ""); [reflexivity|].
  unfold bind at 1, time_Now.
  assert (H' : heap (tick w) !! l = Some ent) by exact H.
  destruct T; simpl deleteAdapter.
  1-5: match goal with
       | |- defer _ _ (invoke _ ?f ?op ?T ?e) _ = _ =>
           change (invoke Remote f op T e) with
             (fun w0 => invoke Remote f op T e w0)
       end.
  all: unfold defer.
  1-5: rewrite (invoke_eq _ _ _ _ _ _ H');
       erewrite logOpComplete_eq by (simpl; apply lookup_insert_eq); reflexivity.
  unfold ret. rewrite (logOpComplete_eq _ _ _ _ _ _ H'). reflexivity.
Qed.

Lemma Update_eq T syncPeriod l (w : W) ent :
  heap w !! l = Some ent ->
  Update' T syncPeriod (Some l) w =
  let now := wallclock (reads w) in
  let t := wallclock (S (reads w)) in
  if freshb ent syncPeriod t then
    Returns (mkResult false (requeueHint ent syncPeriod t), None)
      (record (skipped (Some l) ent syncPeriod now t) (tick (tick w)))
  else
    match konnectID nilKonnectID (KonnectStatus ent) with
    | None => Panics (tick (tick w))
    | Some id =>
        if String.eqb id "" then
          Returns (emptyResult, Some (MissingRemoteIdentity UpdateOp T ent)) (tick (tick w))
        else match updateAdapter Remote A T with
             | Some f =>
                 Returns (emptyResult, (f ent (remote w)).2)
                   (afterDispatch' f T now UpdateOp l ent (tick (tick w)))
             | None =>
                 Returns (emptyResult, Some (UnsupportedKind T))
                   (afterLog' T now UpdateOp ent (tick (tick w)))
             end
    end.
Proof.
  intros H. unfold Update, bind at 1, load. rewrite H.
  cbv zeta. unfold freshb, skipped, requeueHint, elapsed.
  destruct (GetCondition KonnectEntityProgrammedConditionType ent) as [c ok].
  unfold bind at 1, time_Now at 1. unfold bind at 1, time_Since, bind at 1, time_Now at 1.
  unfold ret at 1. cbv zeta. change (reads (tick w)) with (S (reads w)).
  match goal with |- (if ?b then _ else _) _ = _ => destruct b end; [reflexivity|].
  unfold bind at 1, GetKonnectID, GetKonnectStatus.
  destruct (konnectID nilKonnectID (KonnectStatus ent)) as [id|]; [|reflexivity].
  unfold ret at 1. destruct (String.eqb id ""); [reflexivity|].
  assert (H' : heap (tick (tick w)) !! l = Some ent) by exact H.
  destruct T; simpl updateAdapter;
    try (rewrite (dispatch_eq _ _ _ _ _ _ _ (fun err => (emptyResult, err)) H'); reflexivity).
  unfold defer, ret. rewrite (logOpComplete_eq _ _ _ _ _ _ H'). reflexivity.
Qed.

Lemma Update_fresh_eq T syncPeriod l (w : W) ent :
  heap w !! l = Some ent ->
  Fresh ent syncPeriod (wallclock (S (reads w))) ->
  Update' T syncPeriod (Some l) w
  = Returns (mkResult false (requeueHint ent syncPeriod (wallclock (S (reads w)))), None)
      (record (skipped (Some l) ent syncPeriod (wallclock (reads w)) (wallclock (S (reads w))))
         (tick (tick w))).
Proof.
  intros H Hf. rewrite (Update_eq _ _ _ _ _ H). cbv zeta.
  rewrite (proj2 (freshb_Fresh _ _ _) Hf). reflexivity.
Qed.

(** *** The frame of each entry point

    Either no adapter was called, and then the store and the remote side are
    as they were ([untouched]), or the kind's adapter was called once, and
    then the store differs from the old one by what the adapter wrote behind
    the handle ([writtenBy]). *)

Lemma untouched_refl (w : W) : untouched w w.
Proof. repeat split. Qed.

Lemma untouched_afterLog T start op ent (w w' : W) :
  untouched w w' -> untouched w (afterLog' T start op ent w').
Proof.
  intros (Hh & Hr & Ha). unfold untouched.
  rewrite afterLog_heap, afterLog_remote, afterLog_adapterCalls. auto.
Qed.

Lemma writtenBy_afterDispatch f T start op l ent (w w' : W) :
  untouched w w' -> writtenBy f op T l ent w (afterDispatch' f T start op l ent w').
Proof.
  intros (Hh & Hr & Ha). unfold writtenBy.
  rewrite afterDispatch_heap, afterDispatch_adapterCalls, Hh, Hr, Ha.
  unfold afterDispatch. rewrite afterLog_remote. simpl. rewrite Hr. auto.
Qed.

Lemma untouched_skipped ev (w : W) :
  isAdapterCall ev = false -> untouched w (record ev (tick (tick w))).
Proof.
  intros Hev. repeat split. simpl. rewrite adapterCalls_app. simpl.
  rewrite Hev. apply app_nil_r.
Qed.

Lemma untouched_tick (w : W) : untouched w (tick w).
Proof. repeat split. Qed.

Lemma untouched_tick2 (w : W) : untouched w (tick (tick w)).
Proof. repeat split. Qed.

Lemma Create_frame T l (w : W) ent :
  heap w !! l = Some ent ->
  match createAdapter Remote A T with
  | Some f => writtenBy f CreateOp T l ent w (worldOf (Create' T (Some l) w))
  | None => untouched w (worldOf (Create' T (Some l) w))
  end.
Proof.
  intros H. rewrite (Create_eq _ _ _ _ H).
  destruct (createAdapter Remote A T) as [f|]; simpl worldOf.
  - apply writtenBy_afterDispatch, untouched_tick.
  - apply untouched_afterLog, untouched_tick.
Qed.

Lemma Delete_frame T l (w : W) ent :
  heap w !! l = Some ent ->
  untouched w (worldOf (Delete' T (Some l) w))
  \/ exists f, deleteAdapter Remote A T = Some f
       /\ writtenBy f DeleteOp T l ent w (worldOf (Delete' T (Some l) w)).
Proof.
  intros H. rewrite (Delete_eq _ _ _ _ H).
  destruct (konnectID nilKonnectID (KonnectStatus ent)) as [id|];
    [|left; apply untouched_refl].
  destruct (String.eqb id ""); [left; apply untouched_refl|].
  destruct (deleteAdapter Remote A T) as [f|]; simpl worldOf.
  - right. exists f. split; [reflexivity|]. apply writtenBy_afterDispatch, untouched_tick.
  - left. apply untouched_afterLog, untouched_tick.
Qed.

Lemma Update_frame T syncPeriod l (w : W) ent :
  heap w !! l = Some ent ->
  untouched w (worldOf (Update' T syncPeriod (Some l) w))
  \/ exists f, updateAdapter Remote A T = Some f
       /\ writtenBy f UpdateOp T l ent w (worldOf (Update' T syncPeriod (Some l) w)).
Proof.
  intros H. rewrite (Update_eq _ _ _ _ _ H). cbv zeta.
  destruct (freshb ent syncPeriod _).
  { left. repeat split. simpl. rewrite adapterCalls_app. simpl. apply app_nil_r. }
  destruct (konnectID nilKonnectID (KonnectStatus ent)) as [id|];
    [|left; apply untouched_tick2].
  destruct (String.eqb id ""); [left; apply untouched_tick2|].
  destruct (updateAdapter Remote A T) as [f|]; simpl worldOf.
  - right. exists f. split; [reflexivity|]. apply writtenBy_afterDispatch, untouched_tick2.
  - left. apply untouched_afterLog, untouched_tick2.
Qed.

(** ** The claims *)

(** C8. For every supported kind, [Create] returns the very handle it was
    given, together with whatever the kind's adapter reported (nil or an
    error), and the entity behind the handle is the one the adapter wrote;
    for a kind outside the supported set it returns a nil handle and the
    unsupported-kind error. *)
Theorem Create_returns_its_handle T l (w : W) ent :
  heap w !! l = Some ent ->
  (supported T = true ->
     exists f, createAdapter Remote A T = Some f
       /\ returned (Create' T (Some l) w) = Some (Some l, (f ent (remote w)).2)
       /\ heap (worldOf (Create' T (Some l) w)) !! l = Some (f ent (remote w)).1.1)
  /\ (supported T = false ->
        returned (Create' T (Some l) w) = Some (None, Some (UnsupportedKind T))).
Proof.
  intros H. rewrite (Create_eq _ _ _ _ H). split.
  - intros HT. destruct T; try discriminate HT; simpl createAdapter;
      (eexists; split; [reflexivity|]; split; [reflexivity|]);
      simpl worldOf; rewrite afterDispatch_heap; apply lookup_insert_eq.
  - intros HT. destruct T; try discriminate HT. reflexivity.
Qed.

(** C10. When the Konnect status accessor answers nil, [logOpComplete]
    returns at once and leaves the world as it found it: no record, no clock
    reading.  Hence an operation that completes on an entity whose status is
    nil at that moment has added no telemetry record to the trace. *)
Theorem nil_status_no_telemetry T syncPeriod start op l (w : W) ent :
  heap w !! l = Some ent ->
  (KonnectStatus ent = None ->
     logOpComplete' T start op (Some l) w = Returns tt w)
  /\ (forall ent',
        heap (worldOf (Create' T (Some l) w)) !! l = Some ent' ->
        KonnectStatus ent' = None ->
        telemetry (trace (worldOf (Create' T (Some l) w))) = telemetry (trace w))
  /\ (forall ent',
        heap (worldOf (Delete' T (Some l) w)) !! l = Some ent' ->
        KonnectStatus ent' = None ->
        telemetry (trace (worldOf (Delete' T (Some l) w))) = telemetry (trace w))
  /\ (forall ent',
        heap (worldOf (Update' T syncPeriod (Some l) w)) !! l = Some ent' ->
        KonnectStatus ent' = None ->
        telemetry (trace (worldOf (Update' T syncPeriod (Some l) w))) = telemetry (trace w)).
Proof.
  intros H.
  assert (Hlog : forall start' op' ent' (w' : W),
            heap w' = heap w -> heap (afterLog' T start' op' ent w') !! l = Some ent' ->
            KonnectStatus ent' = None ->
            telemetry (trace (afterLog' T start' op' ent w')) = telemetry (trace w')).
  { intros start' op' ent' w' Hw Hl Hs. rewrite afterLog_heap, Hw, H in Hl.
    injection Hl as ->. rewrite (afterLog_nil_status _ _ _ _ _ Hs). reflexivity. }
  assert (Hdis : forall f start' op' ent' (w' : W),
            heap (afterDispatch' f T start' op' l ent w') !! l = Some ent' ->
            KonnectStatus ent' = None ->
            telemetry (trace (afterDispatch' f T start' op' l ent w')) = telemetry (trace w')).
  { intros f start' op' ent' w' Hl Hs. rewrite afterDispatch_heap, lookup_insert_eq in Hl.
    injection Hl as <-. unfold afterDispatch. rewrite (afterLog_nil_status _ _ _ _ _ Hs).
    simpl. rewrite telemetry_app. simpl. apply app_nil_r. }
  split; [|split; [|split]].
  - intros Hs. rewrite (logOpComplete_eq _ _ _ _ _ _ H), (afterLog_nil_status _ _ _ _ _ Hs).
    reflexivity.
  - intros ent'. rewrite (Create_eq _ _ _ _ H).
    destruct (createAdapter Remote A T) as [f|]; simpl worldOf; intros Hl Hs.
    + exact (Hdis f _ _ ent' (tick w) Hl Hs).
    + exact (Hlog _ _ ent' (tick w) eq_refl Hl Hs).
  - intros ent'. rewrite (Delete_eq _ _ _ _ H).
    destruct (konnectID nilKonnectID (KonnectStatus ent)) as [id|]; [|reflexivity].
    destruct (String.eqb id ""); [reflexivity|].
    destruct (deleteAdapter Remote A T) as [f|]; simpl worldOf; intros Hl Hs.
    + exact (Hdis f _ _ ent' (tick w) Hl Hs).
    + exact (Hlog _ _ ent' (tick w) eq_refl Hl Hs).
  - intros ent'. rewrite (Update_eq _ _ _ _ _ H). cbv zeta.
    destruct (freshb ent syncPeriod _).
    { intros _ _. simpl. rewrite telemetry_app. simpl. apply app_nil_r. }
    destruct (konnectID nilKonnectID (KonnectStatus ent)) as [id|]; [|reflexivity].
    destruct (String.eqb id ""); [reflexivity|].
    destruct (updateAdapter Remote A T) as [f|]; simpl worldOf; intros Hl Hs.
    + exact (Hdis f _ _ ent' (tick (tick w)) Hl Hs).
    + exact (Hlog _ _ ent' (tick (tick w)) eq_refl Hl Hs).
Qed.

(** C7. The normalizer answers nil exactly when it is given nil, and a
    non-nil adapter error comes back wrapped: [Unwrap] of the result is the
    adapter's error, so [errors.Is] finds it in the chain.  (The entity
    handle is nil or points into the store, as a Go pointer does.) *)
Theorem wrapErr_keeps_cause T err op e (w : W) :
  (e = None \/ exists l ent, e = Some l /\ heap w !! l = Some ent) ->
  exists r,
    wrapErr' T err op e w = Returns r w
    /\ (r = None <-> err = None)
    /\ (forall cause, err = Some cause ->
          exists wrapped,
            r = Some wrapped
            /\ Unwrap wrapped = Some cause
            /\ errors_Is wrapped cause = true).
Proof using Type.
  intros He. destruct err as [cause|].
  - assert (Hr : exists msg, wrapErr' T (Some cause) op e w
                             = Returns (Some (wrapError msg cause)) w).
    { destruct He as [->|(l & ent & -> & Hl)].
      - eexists. reflexivity.
      - eexists. unfold wrapErrIfKonnectOpFailed, bind, load. rewrite Hl. reflexivity. }
    destruct Hr as [msg Hr]. exists (Some (wrapError msg cause)).
    split; [exact Hr|]. split; [split; discriminate|].
    intros cause' [= <-]. exists (wrapError msg cause).
    split; [reflexivity|]. split; [reflexivity|apply errors_Is_wrap].
  - exists None. split; [reflexivity|]. split; [split; reflexivity|discriminate].
Qed.


(** C3, as amended.  [Create] runs the telemetry routine once on each of its
    exit paths; [Delete] and [Update] run it once on the exit paths behind
    their checks (the adapter succeeded, the adapter failed, the kind is
    unsupported) and not at all when they stop at the missing identifier or,
    for [Update], at the freshness gate.  Where it runs it writes one record
    if the entity then has a Konnect status, none otherwise. *)
Theorem telemetry_per_call T syncPeriod l (w : W) ent :
  heap w !! l = Some ent ->
  (exists r ent',
     returned (Create' T (Some l) w) = Some r
     /\ heap (worldOf (Create' T (Some l) w)) !! l = Some ent'
     /\ length (telemetry (trace (worldOf (Create' T (Some l) w))))
        = (length (telemetry (trace w)) + recordsFor ent')%nat)
  /\ (forall id, konnectID nilKonnectID (KonnectStatus ent) = Some id ->
        (id = "" ->
           returned (Delete' T (Some l) w) = Some (Some (MissingRemoteIdentity DeleteOp T ent))
           /\ telemetry (trace (worldOf (Delete' T (Some l) w))) = telemetry (trace w))
        /\ (id <> "" ->
              exists r ent',
                returned (Delete' T (Some l) w) = Some r
                /\ heap (worldOf (Delete' T (Some l) w)) !! l = Some ent'
                /\ length (telemetry (trace (worldOf (Delete' T (Some l) w))))
                   = (length (telemetry (trace w)) + recordsFor ent')%nat))
  /\ (Fresh ent syncPeriod (wallclock (S (reads w))) ->
        exists r,
          returned (Update' T syncPeriod (Some l) w) = Some (r, None)
          /\ telemetry (trace (worldOf (Update' T syncPeriod (Some l) w)))
             = telemetry (trace w))
  /\ (~ Fresh ent syncPeriod (wallclock (S (reads w))) ->
      forall id, konnectID nilKonnectID (KonnectStatus ent) = Some id ->
        (id = "" ->
           returned (Update' T syncPeriod (Some l) w)
           = Some (emptyResult, Some (MissingRemoteIdentity UpdateOp T ent))
           /\ telemetry (trace (worldOf (Update' T syncPeriod (Some l) w)))
              = telemetry (trace w))
        /\ (id <> "" ->
              exists r ent',
                returned (Update' T syncPeriod (Some l) w) = Some r
                /\ heap (worldOf (Update' T syncPeriod (Some l) w)) !! l = Some ent'
                /\ length (telemetry (trace (worldOf (Update' T syncPeriod (Some l) w))))
                   = (length (telemetry (trace w)) + recordsFor ent')%nat)).
Proof.
  intros H.
  assert (Hdis : forall f start op (w' : W),
            heap (afterDispatch' f T start op l ent w') !! l = Some (f ent (remote w')).1.1).
  { intros. rewrite afterDispatch_heap. apply lookup_insert_eq. }
  assert (Hlog : forall start op (w' : W), heap w' = heap w ->
            heap (afterLog' T start op ent w') !! l = Some ent).
  { intros start op w' Hw. rewrite afterLog_heap, Hw. exact H. }
  split; [|split; [|split]].
  - rewrite (Create_eq _ _ _ _ H). destruct (createAdapter Remote A T) as [f|].
    + eexists _, _. split; [reflexivity|]. split; [apply Hdis|].
      simpl worldOf. rewrite afterDispatch_telemetry. reflexivity.
    + eexists _, _. split; [reflexivity|]. split; [apply Hlog; reflexivity|].
      simpl worldOf. rewrite afterLog_telemetry. reflexivity.
  - intros id Hid. rewrite (Delete_eq _ _ _ _ H), Hid. split.
    + intros ->. simpl. auto.
    + intros Hne. destruct (String.eqb_spec id ""); [contradiction|].
      destruct (deleteAdapter Remote A T) as [f|].
      * eexists _, _. split; [reflexivity|]. split; [apply Hdis|].
        simpl worldOf. rewrite afterDispatch_telemetry. reflexivity.
      * eexists _, _. split; [reflexivity|]. split; [apply Hlog; reflexivity|].
        simpl worldOf. rewrite afterLog_telemetry. reflexivity.
  - rewrite <- freshb_Fresh. intros Hf. rewrite (Update_eq _ _ _ _ _ H). cbv zeta.
    rewrite Hf. eexists. split; [reflexivity|].
    simpl. rewrite telemetry_app. simpl. apply app_nil_r.
  - rewrite <- freshb_Fresh. intros Hf id Hid.
    rewrite (Update_eq _ _ _ _ _ H). cbv zeta.
    destruct (freshb ent syncPeriod _); [congruence|]. rewrite Hid. split.
    + intros ->. simpl. auto.
    + intros Hne. destruct (String.eqb_spec id ""); [contradiction|].
      destruct (updateAdapter Remote A T) as [f|].
      * eexists _, _. split; [reflexivity|]. split; [apply Hdis|].
        simpl worldOf. rewrite afterDispatch_telemetry. reflexivity.
      * eexists _, _. split; [reflexivity|]. split; [apply Hlog; reflexivity|].
        simpl worldOf. rewrite afterLog_telemetry. reflexivity.
Qed.

(** C5, as amended.  On the fresh path [Update] returns the hint
    [syncPeriod - elapsed], computed with the wrap-around of [int64], where
    [elapsed] is what [time.Since] measured, and calls no adapter.  As long as
    that difference fits a [Duration] (it does whenever [elapsed] is not
    negative) the hint is the exact difference, it is not negative, and it is
    zero exactly when [elapsed] equals [syncPeriod]; when the difference
    does not fit, the hint is negative.  Over two successive fresh calls
    between which the elapsed time grew, the second hint is strictly smaller
    and no adapter has been called.  Whenever [Update] did call an adapter,
    the hint it returns is zero. *)
Theorem Update_fresh_requeue T syncPeriod l (w : W) ent :
  heap w !! l = Some ent ->
  (Fresh ent syncPeriod (wallclock (S (reads w))) ->
     returned (Update' T syncPeriod (Some l) w)
     = Some (mkResult false (requeueHint ent syncPeriod (wallclock (S (reads w)))), None)
     /\ untouched w (worldOf (Update' T syncPeriod (Some l) w))
     /\ requeueHint ent syncPeriod (wallclock (S (reads w)))
        = Int64.wrap (syncPeriod - elapsed ent (wallclock (S (reads w))))
     /\ (syncPeriod - elapsed ent (wallclock (S (reads w))) <= Int64.max ->
           requeueHint ent syncPeriod (wallclock (S (reads w)))
           = syncPeriod - elapsed ent (wallclock (S (reads w)))
           /\ 0 <= requeueHint ent syncPeriod (wallclock (S (reads w)))
           /\ (requeueHint ent syncPeriod (wallclock (S (reads w))) = 0
               <-> elapsed ent (wallclock (S (reads w))) = syncPeriod))
     /\ (Int64.in_range syncPeriod ->
           Int64.max < syncPeriod - elapsed ent (wallclock (S (reads w))) ->
           requeueHint ent syncPeriod (wallclock (S (reads w))) < 0))
  /\ (Fresh ent syncPeriod (wallclock (S (reads w))) ->
      Fresh ent syncPeriod (wallclock (S (S (S (reads w))))) ->
      elapsed ent (wallclock (S (reads w))) < elapsed ent (wallclock (S (S (S (reads w))))) ->
      syncPeriod - elapsed ent (wallclock (S (reads w))) <= Int64.max ->
      returned (Update' T syncPeriod (Some l) w)
      = Some (mkResult false (syncPeriod - elapsed ent (wallclock (S (reads w)))), None)
      /\ returned (Update' T syncPeriod (Some l) (worldOf (Update' T syncPeriod (Some l) w)))
         = Some (mkResult false
                   (syncPeriod - elapsed ent (wallclock (S (S (S (reads w)))))), None)
      /\ 0 <= syncPeriod - elapsed ent (wallclock (S (S (S (reads w)))))
           < syncPeriod - elapsed ent (wallclock (S (reads w)))
      /\ untouched w
           (worldOf (Update' T syncPeriod (Some l) (worldOf (Update' T syncPeriod (Some l) w)))))
  /\ (forall r err,
        returned (Update' T syncPeriod (Some l) w) = Some (r, err) ->
        adapterCalls (trace (worldOf (Update' T syncPeriod (Some l) w)))
        <> adapterCalls (trace w) ->
        RequeueAfter r = 0).
Proof.
  intros H. split; [|split].
  - intros Hf. rewrite (Update_fresh_eq _ _ _ _ _ H Hf).
    split; [reflexivity|]. split; [apply untouched_skipped; reflexivity|].
    split; [reflexivity|].
    split.
    + intros Hmax. destruct (requeueHint_exact _ _ _ Hf Hmax) as [-> Hpos]. lia.
    + intros Hsp Hover. exact (requeueHint_overflow _ _ _ Hsp Hf Hover).
  - intros Hf1 Hf3 Hlt Hmax.
    destruct (requeueHint_exact _ _ _ Hf1 Hmax) as [E1 _].
    destruct (requeueHint_exact _ _ _ Hf3 ltac:(lia)) as [E3 Hpos3].
    rewrite (Update_fresh_eq _ _ _ _ _ H Hf1). simpl worldOf.
    erewrite (Update_fresh_eq T syncPeriod l _ ent); [|exact H|exact Hf3]. simpl returned.
    rewrite E1. simpl reads. rewrite E3.
    split; [reflexivity|]. split; [reflexivity|]. split; [lia|].
    repeat split. simpl. rewrite !adapterCalls_app. simpl. rewrite !app_nil_r. reflexivity.
  - intros r err Hr Hcalls. destruct (Update_frame T syncPeriod _ _ _ H) as [Hu|(f & Hf & Hw)].
    + destruct Hu as (_ & _ & Hu). contradiction.
    + revert Hr. rewrite (Update_eq _ _ _ _ _ H). cbv zeta.
      destruct (freshb ent syncPeriod _) eqn:Efresh.
      { exfalso. apply Hcalls. rewrite (Update_eq _ _ _ _ _ H). cbv zeta. rewrite Efresh.
        simpl. rewrite adapterCalls_app. simpl. apply app_nil_r. }
      destruct (konnectID nilKonnectID (KonnectStatus ent)) as [id|]; [|discriminate].
      destruct (String.eqb id ""); [intros [= <- _]; reflexivity|].
      destruct (updateAdapter Remote A T); intros [= <- _]; reflexivity.
Qed.

(** The [default] branches of the three type switches.  The constraint on
    [T] admits the five supported kinds only, so no caller can reach them;
    this is what they would do for a kind outside the set.  [Create] fails
    with the unsupported-kind error; [Delete] does once the entity has a
    non-empty Konnect ID, and [Update] does once the entity has one and is not
    fresh.  On every path of the three no adapter is called and the store
    and the remote side stay as they were. *)
Theorem unsupported_kind_fails goType syncPeriod l (w : W) ent :
  heap w !! l = Some ent ->
  returned (Create' (OtherKind goType) (Some l) w)
  = Some (None, Some (UnsupportedKind (OtherKind goType)))
  /\ (forall id, konnectID nilKonnectID (KonnectStatus ent) = Some id -> id <> "" ->
        returned (Delete' (OtherKind goType) (Some l) w)
        = Some (Some (UnsupportedKind (OtherKind goType))))
  /\ (forall id, konnectID nilKonnectID (KonnectStatus ent) = Some id -> id <> "" ->
        ~ Fresh ent syncPeriod (wallclock (S (reads w))) ->
        returned (Update' (OtherKind goType) syncPeriod (Some l) w)
        = Some (emptyResult, Some (UnsupportedKind (OtherKind goType))))
  /\ untouched w (worldOf (Create' (OtherKind goType) (Some l) w))
  /\ untouched w (worldOf (Delete' (OtherKind goType) (Some l) w))
  /\ untouched w (worldOf (Update' (OtherKind goType) syncPeriod (Some l) w)).
Proof.
  intros H. split; [|split; [|split; [|split; [|split]]]].
  - rewrite (Create_eq _ _ _ _ H). reflexivity.
  - intros id Hid Hne. rewrite (Delete_eq _ _ _ _ H), Hid.
    destruct (String.eqb_spec id ""); [contradiction|reflexivity].
  - intros id Hid Hne Hf. rewrite <- freshb_Fresh in Hf.
    rewrite (Update_eq _ _ _ _ _ H). cbv zeta.
    destruct (freshb ent syncPeriod _); [congruence|]. rewrite Hid.
    destruct (String.eqb_spec id ""); [contradiction|reflexivity].
  - exact (Create_frame (OtherKind goType) _ _ _ H).
  - destruct (Delete_frame (OtherKind goType) _ _ _ H) as [Hu|(f & Hf & _)];
      [exact Hu|discriminate Hf].
  - destruct (Update_frame (OtherKind goType) syncPeriod _ _ _ H) as [Hu|(f & Hf & _)];
      [exact Hu|discriminate Hf].
Qed.

(** C9. The core itself never writes to the entity.  When [Update] or
    [Delete] stop at the missing identifier, when [Update] returns early as
    fresh, and when the kind is unsupported, the store is what it was, so the
    entity keeps its conditions, generation and remote identity; and on
    every path of every entry point the store is either what it was or
    differs from it by what the kind's adapter, called once, wrote behind
    the handle. *)
Theorem core_never_writes_entity T syncPeriod l (w : W) ent :
  heap w !! l = Some ent ->
  (konnectID nilKonnectID (KonnectStatus ent) = Some "" ->
     untouched w (worldOf (Delete' T (Some l) w))
     /\ untouched w (worldOf (Update' T syncPeriod (Some l) w)))
  /\ (Fresh ent syncPeriod (wallclock (S (reads w))) ->
        untouched w (worldOf (Update' T syncPeriod (Some l) w)))
  /\ (supported T = false ->
        untouched w (worldOf (Create' T (Some l) w))
        /\ untouched w (worldOf (Delete' T (Some l) w))
        /\ untouched w (worldOf (Update' T syncPeriod (Some l) w)))
  /\ (untouched w (worldOf (Create' T (Some l) w))
      \/ exists f, createAdapter Remote A T = Some f
           /\ writtenBy f CreateOp T l ent w (worldOf (Create' T (Some l) w)))
  /\ (untouched w (worldOf (Delete' T (Some l) w))
      \/ exists f, deleteAdapter Remote A T = Some f
           /\ writtenBy f DeleteOp T l ent w (worldOf (Delete' T (Some l) w)))
  /\ (untouched w (worldOf (Update' T syncPeriod (Some l) w))
      \/ exists f, updateAdapter Remote A T = Some f
           /\ writtenBy f UpdateOp T l ent w (worldOf (Update' T syncPeriod (Some l) w))).
Proof.
  intros H.
  pose proof (Create_frame T _ _ _ H) as HC.
  pose proof (Delete_frame T _ _ _ H) as HD.
  pose proof (Update_frame T syncPeriod _ _ _ H) as HU.
  split; [|split; [|split; [|split; [|split]]]]; [| | | |exact HD|exact HU].
  - intros Hid. split.
    + rewrite (Delete_eq _ _ _ _ H), Hid. apply untouched_refl.
    + rewrite (Update_eq _ _ _ _ _ H). cbv zeta. rewrite Hid.
      destruct (freshb ent syncPeriod _); [|apply untouched_tick2].
      repeat split. simpl. rewrite adapterCalls_app. simpl. apply app_nil_r.
  - rewrite <- freshb_Fresh. intros Hf. rewrite (Update_eq _ _ _ _ _ H). cbv zeta.
    rewrite Hf. repeat split. simpl. rewrite adapterCalls_app. simpl. apply app_nil_r.
  - intros HT. destruct T; try discriminate HT. split; [exact HC|]. split.
    + destruct HD as [Hu|(f & Hf & _)]; [exact Hu|discriminate Hf].
    + destruct HU as [Hu|(f & Hf & _)]; [exact Hu|discriminate Hf].
  - destruct (createAdapter Remote A T) as [f|]; [right; eauto|left; exact HC].
Qed.

(** The two messages of the normalizer as the code builds them.  Both start
    with the operation kind and end with the message of the cause.  For a
    nil handle the short format prints the type of the entity.  For a handle
    to an entity the long format is given the object key where its verb [%T]
    stands and the entity where its verb [%q] stands, so it prints the type
    of the key and a dump of the entity. *)
Theorem wrapErr_message_forms T op cause (w : W) :
  returned (wrapErr' T (Some cause) op None w)
  = Some (Some (wrapError (shortForm op (typeString T) (Error cause)) cause))
  /\ (forall l ent, heap w !! l = Some ent ->
        returned (wrapErr' T (Some cause) op (Some l) w)
        = Some (Some (wrapError
             (longForm op NamespacedName_typeString (fmtQuoted ent) (Error cause)) cause)))
  /\ (forall ty,
        Contains (shortForm op ty (Error cause)) op = true
        /\ Contains (shortForm op ty (Error cause)) (Error cause) = true)
  /\ (forall ty q,
        Contains (longForm op ty q (Error cause)) op = true
        /\ Contains (longForm op ty q (Error cause)) q = true
        /\ Contains (longForm op ty q (Error cause)) (Error cause) = true).
Proof.
  split; [reflexivity|]. split; [|split].
  - intros l ent Hl. unfold wrapErrIfKonnectOpFailed, bind, load. rewrite Hl. reflexivity.
  - intros ty. unfold shortForm. split; [apply Contains_app|].
    do 5 apply Contains_append_r. apply Contains_refl.
  - intros ty q. unfold longForm. split; [apply Contains_app|]. split.
    + do 5 apply Contains_append_r. apply (Contains_app q "").
    + do 7 apply Contains_append_r. apply Contains_refl.
Qed.

(** Two facts next to C1: with an empty Konnect ID, [Delete] fails with the
    missing-identity error and leaves the world as it was; [Update] calls no
    adapter either, and fails with that error unless the entity is fresh. *)
Lemma Delete_requires_identity T l (w : W) ent :
  heap w !! l = Some ent ->
  konnectID nilKonnectID (KonnectStatus ent) = Some "" ->
  Delete' T (Some l) w = Returns (Some (MissingRemoteIdentity DeleteOp T ent)) w.
Proof. intros H Hid. rewrite (Delete_eq _ _ _ _ H), Hid. reflexivity. Qed.

Lemma Update_without_identity T syncPeriod l (w : W) ent :
  heap w !! l = Some ent ->
  konnectID nilKonnectID (KonnectStatus ent) = Some "" ->
  untouched w (worldOf (Update' T syncPeriod (Some l) w))
  /\ (~ Fresh ent syncPeriod (wallclock (S (reads w))) ->
        returned (Update' T syncPeriod (Some l) w)
        = Some (emptyResult, Some (MissingRemoteIdentity UpdateOp T ent)))
  /\ (Fresh ent syncPeriod (wallclock (S (reads w))) ->
        returned (Update' T syncPeriod (Some l) w)
        = Some (mkResult false (requeueHint ent syncPeriod (wallclock (S (reads w)))), None)).
Proof.
  intros H Hid. rewrite <- !freshb_Fresh. rewrite (Update_eq _ _ _ _ _ H). cbv zeta.
  rewrite Hid. destruct (freshb ent syncPeriod _).
  - split; [|split; [congruence|reflexivity]].
    repeat split. simpl. rewrite adapterCalls_app. simpl. apply app_nil_r.
  - split; [apply untouched_tick2|]. split; [reflexivity|discriminate].
Qed.

(** Staleness idempotence, told by the clock.  An entity is programmed, the
    first call reads the clock no earlier than the last transition, the
    second call reads it later, and still within [syncPeriod] of the
    transition: both calls return early, the hints are the exact remainders
    of the window, the second is smaller than the first and is zero exactly
    when the window has run out, and no adapter is called. *)
Lemma staleness_idempotence T syncPeriod l (w : W) ent c :
  heap w !! l = Some ent ->
  Programmed ent c ->
  Int64.in_range syncPeriod ->
  LastTransitionTime c <= wallclock (S (reads w)) ->
  wallclock (S (reads w)) < wallclock (S (S (S (reads w)))) ->
  wallclock (S (S (S (reads w)))) <= LastTransitionTime c + syncPeriod ->
  returned (Update' T syncPeriod (Some l) w)
  = Some (mkResult false (LastTransitionTime c + syncPeriod - wallclock (S (reads w))), None)
  /\ returned (Update' T syncPeriod (Some l) (worldOf (Update' T syncPeriod (Some l) w)))
     = Some (mkResult false
               (LastTransitionTime c + syncPeriod - wallclock (S (S (S (reads w))))), None)
  /\ 0 <= LastTransitionTime c + syncPeriod - wallclock (S (S (S (reads w))))
       < LastTransitionTime c + syncPeriod - wallclock (S (reads w))
  /\ (LastTransitionTime c + syncPeriod - wallclock (S (S (S (reads w)))) = 0
      <-> wallclock (S (S (S (reads w)))) = LastTransitionTime c + syncPeriod)
  /\ untouched w
       (worldOf (Update' T syncPeriod (Some l) (worldOf (Update' T syncPeriod (Some l) w)))).
Proof.
  intros H Hc Hsp Hlo Hlt Hhi.
  assert (Hel : forall t, LastTransitionTime c <= t <= LastTransitionTime c + syncPeriod ->
            elapsed ent t = t - LastTransitionTime c).
  { intros t Ht. rewrite (Programmed_elapsed _ _ _ Hc). apply Time_Sub_exact.
    unfold Int64.in_range, Int64.min, Int64.max in *. lia. }
  assert (Hfr : forall t, LastTransitionTime c <= t <= LastTransitionTime c + syncPeriod ->
            Fresh ent syncPeriod t
            /\ requeueHint ent syncPeriod t = LastTransitionTime c + syncPeriod - t).
  { intros t Ht. pose proof (Hel t Ht) as E.
    assert (Hf : Fresh ent syncPeriod t).
    { apply (Programmed_Fresh _ _ _ _ Hc). rewrite <- (Programmed_elapsed _ _ _ Hc), E. lia. }
    split; [exact Hf|].
    destruct (requeueHint_exact _ _ _ Hf) as [-> _]; rewrite E;
      unfold Int64.in_range, Int64.min, Int64.max in *; lia. }
  destruct (Hfr (wallclock (S (reads w))) ltac:(lia)) as [Hf1 E1].
  destruct (Hfr (wallclock (S (S (S (reads w))))) ltac:(lia)) as [Hf3 E3].
  rewrite (Update_fresh_eq _ _ _ _ _ H Hf1). simpl worldOf.
  erewrite (Update_fresh_eq T syncPeriod l _ ent); [|exact H|exact Hf3].
  simpl returned. rewrite E1. simpl reads. rewrite E3.
  split; [reflexivity|]. split; [reflexivity|]. split; [lia|]. split; [lia|].
  repeat split. simpl. rewrite !adapterCalls_app. simpl. rewrite !app_nil_r. reflexivity.
Qed.

End Facts.

(** * Further facts on the operations *)

Lemma errors_Is_step msg e target :
  errors_Is e target = true -> errors_Is (wrapError msg e) target = true.
Proof. intros H. simpl. destruct (bool_decide _); [reflexivity|exact H]. Qed.

(** The gate only closes with time: what is stale at one reading of the
    clock is stale at every later reading. *)
Lemma Fresh_earlier ent syncPeriod t t' :
  t <= t' -> Fresh ent syncPeriod t' -> Fresh ent syncPeriod t.
Proof.
  intros Ht (c & Hc & Hle). exists c. split; [exact Hc|].
  pose proof (Time_Sub_mono t t' (LastTransitionTime c) Ht). lia.
Qed.

Section Composition.

Variable Remote : Type.
Variable A : Adapters Remote.
Variable wallclock : nat -> Time.
Variable nilKonnectID : option string.
Variable entityTypeName : EntityKind -> string.
Variable fmtQuoted : Entity -> string.

Abbreviation W2 := (World Remote).
Abbreviation afterLog2 := (afterLog Remote wallclock entityTypeName).
Abbreviation afterDispatch2 := (afterDispatch Remote wallclock entityTypeName).
Abbreviation Create2 := (Create Remote A wallclock entityTypeName).
Abbreviation Delete2 := (Delete Remote A wallclock nilKonnectID entityTypeName).
Abbreviation Update2 := (Update Remote A wallclock nilKonnectID entityTypeName).
Abbreviation wrapErr2 := (wrapErrIfKonnectOpFailed Remote fmtQuoted).

Lemma afterLog_reads T start op ent (w : W2) :
  reads (afterLog2 T start op ent w) = (recordsFor ent + reads w)%nat.
Proof. unfold afterLog, recordsFor. destruct (KonnectStatus ent); reflexivity. Qed.

Lemma afterDispatch_lookup f T start op l ent (w : W2) :
  heap (afterDispatch2 f T start op l ent w) !! l = Some (f ent (remote w)).1.1.
Proof. rewrite afterDispatch_heap. apply lookup_insert_eq. Qed.

Lemma afterDispatch_remote f T start op l ent (w : W2) :
  remote (afterDispatch2 f T start op l ent w) = (f ent (remote w)).1.2.
Proof. unfold afterDispatch. rewrite afterLog_remote. reflexivity. Qed.

Lemma afterDispatch_trace f T start op l ent (w : W2) st :
  KonnectStatus (f ent (remote w)).1.1 = Some st ->
  trace (afterDispatch2 f T start op l ent w)
  = trace w ++ [EvAdapter op T (Some l);
                EvInfo "operation in Konnect API complete" op
                  (Time_Sub (wallclock (reads w)) start) (entityTypeName T) (ID st)].
Proof.
  intros Hst. unfold afterDispatch, afterLog. rewrite Hst. simpl.
  rewrite <- app_assoc. reflexivity.
Qed.

(** Round trip.  After a [Create] whose adapter left the entity with a
    non-empty Konnect ID, [Delete] passes its check and hands the delete
    adapter exactly the entity and the remote state that the create adapter
    left; the two adapter calls are the only ones made. *)
Lemma Create_then_Delete T l (w : W2) ent f g id :
  heap w !! l = Some ent ->
  createAdapter Remote A T = Some f ->
  deleteAdapter Remote A T = Some g ->
  konnectID nilKonnectID (KonnectStatus (f ent (remote w)).1.1) = Some id ->
  id <> "" ->
  returned (Delete2 T (Some l) (worldOf (Create2 T (Some l) w)))
  = Some (g (f ent (remote w)).1.1 (f ent (remote w)).1.2).2
  /\ heap (worldOf (Delete2 T (Some l) (worldOf (Create2 T (Some l) w)))) !! l
     = Some (g (f ent (remote w)).1.1 (f ent (remote w)).1.2).1.1
  /\ adapterCalls (trace (worldOf (Delete2 T (Some l) (worldOf (Create2 T (Some l) w)))))
     = adapterCalls (trace w) ++ [EvAdapter CreateOp T (Some l); EvAdapter DeleteOp T (Some l)].
Proof.
  intros H Hf Hg Hid Hne. rewrite (Create_eq _ _ _ _ _ _ _ _ H), Hf. simpl worldOf.
  pose proof (afterDispatch_lookup f T (wallclock (reads w)) CreateOp l ent (tick w)) as H1.
  rewrite (Delete_eq _ _ _ _ _ _ _ _ _ H1), Hg.
  change (remote (tick w)) with (remote w). rewrite Hid.
  destruct (String.eqb_spec id ""); [contradiction|].
  rewrite afterDispatch_remote. change (remote (tick w)) with (remote w).
  split; [reflexivity|]. simpl worldOf. split.
  - rewrite afterDispatch_lookup.
    change (remote (tick ?x)) with (remote x).
    rewrite afterDispatch_remote. reflexivity.
  - rewrite afterDispatch_adapterCalls. simpl trace.
    rewrite afterDispatch_adapterCalls, <- app_assoc. reflexivity.
Qed.

(** [Create] has no guard of its own: a second [Create] calls the create
    adapter again, on the entity and the remote state the first call left. *)
Lemma Create_twice T l (w : W2) ent f :
  heap w !! l = Some ent ->
  createAdapter Remote A T = Some f ->
  returned (Create2 T (Some l) (worldOf (Create2 T (Some l) w)))
  = Some (Some l, (f (f ent (remote w)).1.1 (f ent (remote w)).1.2).2)
  /\ adapterCalls (trace (worldOf (Create2 T (Some l) (worldOf (Create2 T (Some l) w)))))
     = adapterCalls (trace w) ++ [EvAdapter CreateOp T (Some l); EvAdapter CreateOp T (Some l)].
Proof.
  intros H Hf. rewrite (Create_eq _ _ _ _ _ _ _ _ H), Hf. simpl worldOf.
  pose proof (afterDispatch_lookup f T (wallclock (reads w)) CreateOp l ent (tick w)) as H1.
  rewrite (Create_eq _ _ _ _ _ _ _ _ H1), Hf.
  rewrite afterDispatch_remote. change (remote (tick w)) with (remote w).
  split; [reflexivity|]. simpl worldOf.
  rewrite afterDispatch_adapterCalls. simpl trace.
  rewrite afterDispatch_adapterCalls, <- app_assoc. reflexivity.
Qed.

(** What a dispatched operation writes to the trace: the adapter call and
    then one record, which carries the Konnect ID as the adapter left it and
    the time between the reading taken at the start and the reading taken
    when the operation is over.  For [Update] the start is the reading taken
    before the gate. *)
Lemma trace_of_dispatched_operation T syncPeriod l (w : W2) ent :
  heap w !! l = Some ent ->
  (forall f st,
     createAdapter Remote A T = Some f ->
     KonnectStatus (f ent (remote w)).1.1 = Some st ->
     trace (worldOf (Create2 T (Some l) w))
     = trace w ++ [EvAdapter CreateOp T (Some l);
                   EvInfo "operation in Konnect API complete" CreateOp
                     (Time_Sub (wallclock (S (reads w))) (wallclock (reads w)))
                     (entityTypeName T) (ID st)])
  /\ (forall f st id,
        deleteAdapter Remote A T = Some f ->
        konnectID nilKonnectID (KonnectStatus ent) = Some id -> id <> "" ->
        KonnectStatus (f ent (remote w)).1.1 = Some st ->
        trace (worldOf (Delete2 T (Some l) w))
        = trace w ++ [EvAdapter DeleteOp T (Some l);
                      EvInfo "operation in Konnect API complete" DeleteOp
                        (Time_Sub (wallclock (S (reads w))) (wallclock (reads w)))
                        (entityTypeName T) (ID st)])
  /\ (forall f st id,
        updateAdapter Remote A T = Some f ->
        ~ Fresh ent syncPeriod (wallclock (S (reads w))) ->
        konnectID nilKonnectID (KonnectStatus ent) = Some id -> id <> "" ->
        KonnectStatus (f ent (remote w)).1.1 = Some st ->
        trace (worldOf (Update2 T syncPeriod (Some l) w))
        = trace w ++ [EvAdapter UpdateOp T (Some l);
                      EvInfo "operation in Konnect API complete" UpdateOp
                        (Time_Sub (wallclock (S (S (reads w)))) (wallclock (reads w)))
                        (entityTypeName T) (ID st)]).
Proof.
  intros H. split; [|split].
  - intros f st Hf Hst. rewrite (Create_eq _ _ _ _ _ _ _ _ H), Hf. simpl worldOf.
    exact (afterDispatch_trace f T _ CreateOp l ent (tick w) st Hst).
  - intros f st id Hf Hid Hne Hst. rewrite (Delete_eq _ _ _ _ _ _ _ _ _ H), Hid, Hf.
    destruct (String.eqb_spec id ""); [contradiction|]. simpl worldOf.
    exact (afterDispatch_trace f T _ DeleteOp l ent (tick w) st Hst).
  - intros f st id Hf Hfresh Hid Hne Hst. rewrite <- freshb_Fresh in Hfresh.
    rewrite (Update_eq _ _ _ _ _ _ _ _ _ _ H). cbv zeta.
    destruct (freshb ent syncPeriod _); [congruence|]. rewrite Hid, Hf.
    destruct (String.eqb_spec id ""); [contradiction|]. simpl worldOf.
    exact (afterDispatch_trace f T _ UpdateOp l ent (tick (tick w)) st Hst).
Qed.

(** Throttling.  When an [Update] was dispatched and its adapter left the
    entity fresh at the reading the next [Update] takes, that next call
    returns the requeue hint and calls no adapter: over the two calls the
    adapter ran once, and the entity is the one the adapter wrote. *)
Lemma Update_then_Update_skips T syncPeriod l (w : W2) ent f id :
  heap w !! l = Some ent ->
  ~ Fresh ent syncPeriod (wallclock (S (reads w))) ->
  konnectID nilKonnectID (KonnectStatus ent) = Some id ->
  id <> "" ->
  updateAdapter Remote A T = Some f ->
  Fresh (f ent (remote w)).1.1 syncPeriod
    (wallclock (S (reads (worldOf (Update2 T syncPeriod (Some l) w))))) ->
  returned (Update2 T syncPeriod (Some l) (worldOf (Update2 T syncPeriod (Some l) w)))
  = Some (mkResult false
            (requeueHint (f ent (remote w)).1.1 syncPeriod
               (wallclock (S (reads (worldOf (Update2 T syncPeriod (Some l) w)))))), None)
  /\ adapterCalls
       (trace (worldOf (Update2 T syncPeriod (Some l)
                          (worldOf (Update2 T syncPeriod (Some l) w)))))
     = adapterCalls (trace w) ++ [EvAdapter UpdateOp T (Some l)]
  /\ heap (worldOf (Update2 T syncPeriod (Some l)
                      (worldOf (Update2 T syncPeriod (Some l) w)))) !! l
     = Some (f ent (remote w)).1.1.
Proof.
  intros H Hstale Hid Hne Hf. rewrite <- freshb_Fresh in Hstale.
  rewrite (Update_eq _ _ _ _ _ _ _ _ _ _ H). cbv zeta.
  destruct (freshb ent syncPeriod _); [congruence|]. rewrite Hid, Hf.
  destruct (String.eqb_spec id ""); [contradiction|]. simpl worldOf.
  intros Hfresh.
  pose proof (afterDispatch_lookup f T (wallclock (reads w)) UpdateOp l ent (tick (tick w)))
    as H1.
  change (remote (tick (tick w))) with (remote w) in H1.
  rewrite (Update_fresh_eq _ _ _ _ _ _ _ _ _ _ H1 Hfresh).
  split; [reflexivity|]. simpl worldOf. split.
  - simpl trace. rewrite adapterCalls_app, afterDispatch_adapterCalls. simpl.
    apply app_nil_r.
  - exact H1.
Qed.

(** Staleness is permanent.  An entity with a Konnect ID and a supported
    kind that is stale at the reading one [Update] takes is dispatched by
    every [Update] that reads the clock later, as long as the entity is the
    same. *)
Lemma Update_stale_stays_stale T syncPeriod l (w w' : W2) ent f id :
  heap w !! l = Some ent ->
  heap w' !! l = Some ent ->
  wallclock (S (reads w)) <= wallclock (S (reads w')) ->
  ~ Fresh ent syncPeriod (wallclock (S (reads w))) ->
  konnectID nilKonnectID (KonnectStatus ent) = Some id ->
  id <> "" ->
  updateAdapter Remote A T = Some f ->
  returned (Update2 T syncPeriod (Some l) w') = Some (emptyResult, (f ent (remote w')).2)
  /\ adapterCalls (trace (worldOf (Update2 T syncPeriod (Some l) w')))
     = adapterCalls (trace w') ++ [EvAdapter UpdateOp T (Some l)].
Proof.
  intros H H' Ht Hstale Hid Hne Hf.
  assert (Hstale' : ~ Fresh ent syncPeriod (wallclock (S (reads w')))).
  { intros Hfr. exact (Hstale (Fresh_earlier _ _ _ _ Ht Hfr)). }
  rewrite <- freshb_Fresh in Hstale'.
  rewrite (Update_eq _ _ _ _ _ _ _ _ _ _ H'). cbv zeta.
  destruct (freshb ent syncPeriod _); [congruence|]. rewrite Hid, Hf.
  destruct (String.eqb_spec id ""); [contradiction|].
  split; [reflexivity|].
  exact (afterDispatch_adapterCalls _ _ _ f T _ UpdateOp l ent (tick (tick w'))).
Qed.

(** Normalizing twice.  An error that was normalized and is normalized
    again still leads to the first cause: [errors.Is] finds both the inner
    error and the cause, and each message contains the one it wraps. *)
Lemma wrapErr_twice T T' op op' cause l (w : W2) ent :
  heap w !! l = Some ent ->
  exists inner outer,
    wrapErr2 T (Some cause) op (Some l) w = Returns (Some inner) w
    /\ wrapErr2 T' (Some inner) op' (Some l) w = Returns (Some outer) w
    /\ Unwrap outer = Some inner
    /\ Unwrap inner = Some cause
    /\ errors_Is outer inner = true
    /\ errors_Is outer cause = true
    /\ Contains (Error outer) (Error inner) = true
    /\ Contains (Error inner) (Error cause) = true.
Proof using Type.
  intros H. eexists _, _.
  split. { unfold wrapErrIfKonnectOpFailed, bind, load. rewrite H. reflexivity. }
  split. { unfold wrapErrIfKonnectOpFailed, bind, load. rewrite H. reflexivity. }
  split; [reflexivity|]. split; [reflexivity|].
  split; [apply errors_Is_wrap|]. split; [apply errors_Is_step, errors_Is_wrap|].
  split; simpl Error; do 7 apply Contains_append_r; apply Contains_refl.
Qed.

(** The reason written after a failed operation never closes the gate: an
    entity whose Programmed condition carries the reason KonnectAPIOpFailed
    is dispatched by [Update] whatever the status, the generation and the
    age of that condition. *)
Lemma failed_condition_is_dispatched T syncPeriod l (w : W2) ent c f id :
  heap w !! l = Some ent ->
  GetCondition KonnectEntityProgrammedConditionType ent = (c, true) ->
  Reason c = KonnectEntityProgrammedReasonKonnectAPIOpFailed ->
  konnectID nilKonnectID (KonnectStatus ent) = Some id ->
  id <> "" ->
  updateAdapter Remote A T = Some f ->
  returned (Update2 T syncPeriod (Some l) w) = Some (emptyResult, (f ent (remote w)).2)
  /\ adapterCalls (trace (worldOf (Update2 T syncPeriod (Some l) w)))
     = adapterCalls (trace w) ++ [EvAdapter UpdateOp T (Some l)].
Proof.
  intros H Hc Hr Hid Hne Hf.
  assert (Hstale : ~ Fresh ent syncPeriod (wallclock (S (reads w)))).
  { intros (c' & (Hc' & _ & Hr' & _) & _). assert (c' = c) by congruence. subst c'.
    rewrite Hr in Hr'. discriminate Hr'. }
  rewrite <- freshb_Fresh in Hstale.
  rewrite (Update_eq _ _ _ _ _ _ _ _ _ _ H). cbv zeta.
  destruct (freshb ent syncPeriod _); [congruence|]. rewrite Hid, Hf.
  destruct (String.eqb_spec id ""); [contradiction|].
  split; [reflexivity|].
  exact (afterDispatch_adapterCalls _ _ _ f T _ UpdateOp l ent (tick (tick w))).
Qed.

End Composition.

(** * Facts on the metadata utilities *)

Module MetadataFacts.

Import k8sutils.

(** ** Finalizers *)

Lemma finalizerExists_In fs finalizer :
  finalizerExists fs finalizer = true <-> In finalizer fs.
Proof.
  induction fs as [|f fs IH]; simpl; [split; [discriminate|tauto]|].
  destruct (String.eqb_spec f finalizer) as [->|Hne].
  - split; auto.
  - rewrite IH. split; [auto|]. intros [E|Hin]; [contradiction|exact Hin].
Qed.

Lemma finalizerExists_not_In fs finalizer :
  finalizerExists fs finalizer = false <-> ~ In finalizer fs.
Proof.
  rewrite <- finalizerExists_In. destruct (finalizerExists fs finalizer); split; congruence.
Qed.

Lemma In_without g finalizer fs :
  In g (without finalizer fs) <-> In g fs /\ g <> finalizer.
Proof.
  unfold without. rewrite List.filter_In, negb_true_iff.
  destruct (String.eqb_spec g finalizer); split; intros [? ?]; split; congruence.
Qed.

Lemma without_absent finalizer fs :
  ~ In finalizer fs -> without finalizer fs = fs.
Proof.
  induction fs as [|f fs IH]; simpl; [reflexivity|]. intros Hn.
  destruct (String.eqb_spec f finalizer) as [->|Hne]; simpl.
  - exfalso. apply Hn. auto.
  - rewrite IH; [reflexivity|]. intros Hin. apply Hn. auto.
Qed.

Lemma without_comm f g fs : without f (without g fs) = without g (without f fs).
Proof.
  induction fs as [|x fs IH]; simpl; [reflexivity|].
  destruct (String.eqb x g) eqn:Eg, (String.eqb x f) eqn:Ef; simpl;
    rewrite ?Eg, ?Ef; simpl; rewrite ?IH; reflexivity.
Qed.

Lemma finalizerExists_without f g fs :
  g <> f -> finalizerExists (without f fs) g = finalizerExists fs g.
Proof.
  intros Hne. apply eq_true_iff_eq. rewrite !finalizerExists_In, In_without. tauto.
Qed.

(** The loop keeps the finalizers that differ, in their order, and raises
    the flag when it met the one to remove. *)
Lemma removeLoop_eq fs finalizer newFinalizers changed :
  removeLoop fs finalizer newFinalizers changed
  = (newFinalizers ++ without finalizer fs, changed || finalizerExists fs finalizer).
Proof.
  revert newFinalizers changed. induction fs as [|f fs IH]; intros acc ch; simpl.
  - rewrite app_nil_r, orb_false_r. reflexivity.
  - destruct (String.eqb f finalizer); simpl.
    + rewrite IH, orb_true_r. reflexivity.
    + rewrite IH, <- app_assoc. reflexivity.
Qed.

Lemma RemoveFinalizerInMetadata_eq metadata finalizer :
  RemoveFinalizerInMetadata metadata finalizer
  = if finalizerExists (elems (Finalizers metadata)) finalizer
    then (true, setFinalizers metadata (Some (without finalizer (elems (Finalizers metadata)))))
    else (false, metadata).
Proof.
  unfold RemoveFinalizerInMetadata. rewrite removeLoop_eq. simpl.
  destruct (finalizerExists _ _); reflexivity.
Qed.

(** [EnsureFinalizerInMetadata] reports a change exactly when the finalizer
    was missing; afterwards the finalizer is there, at the end when it was
    added, and the rest of the metadata is as before; a second call changes
    nothing. *)
Theorem EnsureFinalizer_adds_once metadata finalizer :
  ((EnsureFinalizerInMetadata metadata finalizer).1 = true
   <-> ~ In finalizer (elems (Finalizers metadata)))
  /\ In finalizer (elems (Finalizers (EnsureFinalizerInMetadata metadata finalizer).2))
  /\ ((EnsureFinalizerInMetadata metadata finalizer).1 = true ->
        (EnsureFinalizerInMetadata metadata finalizer).2
        = setFinalizers metadata (Some (elems (Finalizers metadata) ++ [finalizer])))
  /\ ((EnsureFinalizerInMetadata metadata finalizer).1 = false ->
        (EnsureFinalizerInMetadata metadata finalizer).2 = metadata)
  /\ EnsureFinalizerInMetadata (EnsureFinalizerInMetadata metadata finalizer).2 finalizer
     = (false, (EnsureFinalizerInMetadata metadata finalizer).2).
Proof.
  unfold EnsureFinalizerInMetadata.
  destruct (finalizerExists (elems (Finalizers metadata)) finalizer) eqn:E; simpl.
  - rewrite E. pose proof (proj1 (finalizerExists_In _ _) E) as Hin.
    split; [split; [discriminate|contradiction]|]. repeat split; auto. discriminate.
  - pose proof (proj1 (finalizerExists_not_In _ _) E) as Hn.
    assert (Hin : In finalizer (elems (Finalizers metadata) ++ [finalizer]))
      by (apply List.in_or_app; right; simpl; auto).
    rewrite (proj2 (finalizerExists_In _ _) Hin).
    split; [split; auto|]. repeat split; auto. discriminate.
Qed.

(** [RemoveFinalizerInMetadata] reports a change exactly when the finalizer
    was there; it then removes every occurrence and keeps the others in
    their order, in an allocated slice; otherwise the metadata is as it was.
    Afterwards the finalizer is absent and a second call changes nothing. *)
Theorem RemoveFinalizer_removes_all metadata finalizer :
  ((RemoveFinalizerInMetadata metadata finalizer).1 = true
   <-> In finalizer (elems (Finalizers metadata)))
  /\ ((RemoveFinalizerInMetadata metadata finalizer).1 = true ->
        (RemoveFinalizerInMetadata metadata finalizer).2
        = setFinalizers metadata (Some (without finalizer (elems (Finalizers metadata)))))
  /\ ((RemoveFinalizerInMetadata metadata finalizer).1 = false ->
        (RemoveFinalizerInMetadata metadata finalizer).2 = metadata)
  /\ ~ In finalizer (elems (Finalizers (RemoveFinalizerInMetadata metadata finalizer).2))
  /\ (forall g, g <> finalizer ->
        (In g (elems (Finalizers (RemoveFinalizerInMetadata metadata finalizer).2))
         <-> In g (elems (Finalizers metadata))))
  /\ RemoveFinalizerInMetadata (RemoveFinalizerInMetadata metadata finalizer).2 finalizer
     = (false, (RemoveFinalizerInMetadata metadata finalizer).2).
Proof.
  rewrite RemoveFinalizerInMetadata_eq.
  destruct (finalizerExists (elems (Finalizers metadata)) finalizer) eqn:E; simpl.
  - pose proof (proj1 (finalizerExists_In _ _) E) as Hin.
    assert (Hout : ~ In finalizer (without finalizer (elems (Finalizers metadata))))
      by (rewrite In_without; tauto).
    split; [split; auto|]. split; [reflexivity|]. split; [discriminate|].
    split; [exact Hout|]. split.
    + intros g Hg. rewrite In_without. tauto.
    + rewrite RemoveFinalizerInMetadata_eq. simpl.
      rewrite (proj2 (finalizerExists_not_In _ _) Hout). reflexivity.
  - pose proof (proj1 (finalizerExists_not_In _ _) E) as Hn.
    split; [split; [discriminate|contradiction]|]. split; [discriminate|].
    split; [reflexivity|]. split; [exact Hn|]. split; [tauto|].
    rewrite RemoveFinalizerInMetadata_eq, E. reflexivity.
Qed.

(** Adding a finalizer that was missing and removing it again gives back
    the finalizers there were, both calls reporting a change; the slice is
    then allocated, so the metadata is the original one when its slice of
    finalizers was not nil. *)
Theorem Ensure_then_Remove metadata finalizer :
  ~ In finalizer (elems (Finalizers metadata)) ->
  (EnsureFinalizerInMetadata metadata finalizer).1 = true
  /\ RemoveFinalizerInMetadata (EnsureFinalizerInMetadata metadata finalizer).2 finalizer
     = (true, setFinalizers metadata (Some (elems (Finalizers metadata))))
  /\ (Finalizers metadata <> None ->
        (RemoveFinalizerInMetadata (EnsureFinalizerInMetadata metadata finalizer).2 finalizer).2
        = metadata).
Proof.
  intros Hn. pose proof (proj2 (finalizerExists_not_In _ _) Hn) as E.
  unfold EnsureFinalizerInMetadata. rewrite E. simpl.
  rewrite RemoveFinalizerInMetadata_eq. simpl.
  assert (Hin : In finalizer (elems (Finalizers metadata) ++ [finalizer]))
    by (apply List.in_or_app; right; simpl; auto).
  rewrite (proj2 (finalizerExists_In _ _) Hin).
  assert (Hw : without finalizer (elems (Finalizers metadata) ++ [finalizer])
               = elems (Finalizers metadata)).
  { unfold without. rewrite List.filter_app. simpl. rewrite String.eqb_refl. simpl.
    rewrite app_nil_r. apply (without_absent _ _ Hn). }
  rewrite Hw. split; [reflexivity|]. split; [reflexivity|].
  simpl. destruct metadata as [n ns ls an ow [fs|]]; simpl; [reflexivity|congruence].
Qed.

Lemma without_then_append finalizer fs :
  List.NoDup fs -> In finalizer fs -> Permutation (without finalizer fs ++ [finalizer]) fs.
Proof.
  induction 1 as [|f fs Hnot Hnd IH]; intros Hin; [destruct Hin|]. simpl.
  destruct (String.eqb_spec f finalizer) as [->|Hne]; simpl.
  - rewrite (without_absent _ _ Hnot). symmetry. apply Permutation_cons_append.
  - destruct Hin as [E|Hin]; [contradiction|]. apply perm_skip, IH, Hin.
Qed.

(** Removing a finalizer that occurs once and adding it again moves it to
    the end: the finalizers are the same up to their order. *)
Theorem Remove_then_Ensure metadata finalizer :
  List.NoDup (elems (Finalizers metadata)) ->
  In finalizer (elems (Finalizers metadata)) ->
  elems (Finalizers
           (EnsureFinalizerInMetadata
              (RemoveFinalizerInMetadata metadata finalizer).2 finalizer).2)
  = without finalizer (elems (Finalizers metadata)) ++ [finalizer]
  /\ Permutation
       (elems (Finalizers
                 (EnsureFinalizerInMetadata
                    (RemoveFinalizerInMetadata metadata finalizer).2 finalizer).2))
       (elems (Finalizers metadata)).
Proof.
  intros Hnd Hin.
  assert (E : elems (Finalizers
                (EnsureFinalizerInMetadata
                   (RemoveFinalizerInMetadata metadata finalizer).2 finalizer).2)
              = without finalizer (elems (Finalizers metadata)) ++ [finalizer]).
  { rewrite RemoveFinalizerInMetadata_eq, (proj2 (finalizerExists_In _ _) Hin). simpl.
    unfold EnsureFinalizerInMetadata. simpl.
    assert (Hout : ~ In finalizer (without finalizer (elems (Finalizers metadata))))
      by (rewrite In_without; tauto).
    rewrite (proj2 (finalizerExists_not_In _ _) Hout). reflexivity. }
  split; [exact E|]. rewrite E. exact (without_then_append _ _ Hnd Hin).
Qed.

(** Neither function introduces a duplicate. *)
Theorem finalizers_stay_distinct metadata finalizer :
  List.NoDup (elems (Finalizers metadata)) ->
  List.NoDup (elems (Finalizers (EnsureFinalizerInMetadata metadata finalizer).2))
  /\ List.NoDup (elems (Finalizers (RemoveFinalizerInMetadata metadata finalizer).2)).
Proof.
  intros Hnd. split.
  - unfold EnsureFinalizerInMetadata.
    destruct (finalizerExists (elems (Finalizers metadata)) finalizer) eqn:E; simpl;
      [exact Hnd|].
    pose proof (proj1 (finalizerExists_not_In _ _) E) as Hn.
    apply Permutation_NoDup with (l := finalizer :: elems (Finalizers metadata)).
    + apply Permutation_cons_append.
    + constructor; assumption.
  - rewrite RemoveFinalizerInMetadata_eq.
    destruct (finalizerExists (elems (Finalizers metadata)) finalizer); simpl; [|exact Hnd].
    apply List.NoDup_filter, Hnd.
Qed.

(** Removals commute: the metadata left by removing two finalizers does not
    depend on the order of the two calls. *)
Theorem RemoveFinalizer_commutes metadata f g :
  (RemoveFinalizerInMetadata (RemoveFinalizerInMetadata metadata f).2 g).2
  = (RemoveFinalizerInMetadata (RemoveFinalizerInMetadata metadata g).2 f).2.
Proof.
  destruct (decide (f = g)) as [->|Hne]; [reflexivity|].
  rewrite (RemoveFinalizerInMetadata_eq metadata f), (RemoveFinalizerInMetadata_eq metadata g).
  destruct (finalizerExists (elems (Finalizers metadata)) f) eqn:Ef,
    (finalizerExists (elems (Finalizers metadata)) g) eqn:Eg; simpl;
    rewrite !RemoveFinalizerInMetadata_eq; simpl;
    rewrite ?finalizerExists_without by congruence; rewrite ?Ef, ?Eg; simpl;
    try reflexivity.
  unfold setFinalizers. simpl. rewrite without_comm. reflexivity.
Qed.

(** ** Labels and owner references *)

Lemma copyLabels_allocated generated m :
  copyLabels generated (Some m) = Some (Some (entries generated ∪ m)).
Proof.
  unfold copyLabels.
  apply (map_fold_weak_ind (fun r (src : gmap string string) => r = Some (Some (src ∪ m)))).
  - rewrite (left_id_L ∅ (∪)). reflexivity.
  - intros k v src r _ ->. simpl. rewrite insert_union_l. reflexivity.
Qed.

Lemma copyLabels_nil_cases generated :
  (entries generated = ∅ -> copyLabels generated None = Some None)
  /\ (entries generated <> ∅ -> copyLabels generated None = None).
Proof.
  unfold copyLabels.
  apply (map_fold_weak_ind
           (fun r (src : gmap string string) =>
              (src = ∅ -> r = Some None) /\ (src <> ∅ -> r = None))).
  - split; [reflexivity|congruence].
  - intros k v src r _ [Hempty Hfull]. split.
    + intros E. exfalso. exact (insert_non_empty _ _ _ E).
    + intros _. destruct (decide (src = ∅)) as [E|E].
      * rewrite (Hempty E). reflexivity.
      * rewrite (Hfull E). reflexivity.
Qed.

Lemma copyLabels_nil generated :
  copyLabels generated None = if decide (entries generated = ∅) then Some None else None.
Proof.
  destruct (copyLabels_nil_cases generated) as [Hempty Hfull].
  destruct (decide (entries generated = ∅)); auto.
Qed.

Lemma union_fixed_iff (a b : gmap string string) : a ∪ b = b <-> a ⊆ b.
Proof.
  split.
  - intros <-. apply map_union_subseteq_l.
  - apply map_subseteq_union.
Qed.

(** The function in one equation: the labels are copied, and the flag says
    whether the owner references or the labels differ from the existing
    ones. *)
Lemma EnsureObjectMetaIsUpdated_eq existingObjMeta generatedObjMeta :
  EnsureObjectMetaIsUpdated existingObjMeta generatedObjMeta
  = match copyLabels (Labels generatedObjMeta) (Labels existingObjMeta) with
    | None => None
    | Some labels =>
        Some (negb (DeepEqual (OwnerReferences existingObjMeta)
                      (OwnerReferences generatedObjMeta))
              || negb (DeepEqual (Labels existingObjMeta) labels),
              mkObjectMeta (Name existingObjMeta) (Namespace existingObjMeta) labels
                (Annotations existingObjMeta) (OwnerReferences generatedObjMeta)
                (Finalizers existingObjMeta))
    end.
Proof.
  unfold EnsureObjectMetaIsUpdated. simpl.
  destruct (copyLabels (Labels generatedObjMeta) (Labels existingObjMeta)) as [labels|];
    [|reflexivity].
  unfold setLabels, SetOwnerReferences. simpl.
  destruct (negb _ || negb _); reflexivity.
Qed.

(** [EnsureObjectMetaIsUpdated] panics exactly when the existing labels are
    a nil map and there is a generated label to write. *)
Theorem EnsureObjectMeta_panics_iff existingObjMeta generatedObjMeta :
  EnsureObjectMetaIsUpdated existingObjMeta generatedObjMeta = None
  <-> Labels existingObjMeta = None /\ entries (Labels generatedObjMeta) <> ∅.
Proof.
  rewrite EnsureObjectMetaIsUpdated_eq.
  destruct (Labels existingObjMeta) as [m|].
  - rewrite copyLabels_allocated. split; [discriminate|intros [? _]; discriminate].
  - rewrite copyLabels_nil. destruct (decide (entries (Labels generatedObjMeta) = ∅)).
    + split; [discriminate|tauto].
    + split; auto.
Qed.

(** When the existing labels are allocated, the call returns the existing
    metadata with the owner references replaced by the generated ones and
    with every generated label written over the existing labels: a generated
    label has the generated value, any other key keeps what it had, and no
    label is ever removed. *)
Theorem EnsureObjectMeta_result existingObjMeta generatedObjMeta m :
  Labels existingObjMeta = Some m ->
  exists toUpdate,
    EnsureObjectMetaIsUpdated existingObjMeta generatedObjMeta
    = Some (toUpdate,
            mkObjectMeta (Name existingObjMeta) (Namespace existingObjMeta)
              (Some (entries (Labels generatedObjMeta) ∪ m))
              (Annotations existingObjMeta) (OwnerReferences generatedObjMeta)
              (Finalizers existingObjMeta))
    /\ (forall k v, entries (Labels generatedObjMeta) !! k = Some v ->
          (entries (Labels generatedObjMeta) ∪ m) !! k = Some v)
    /\ (forall k, entries (Labels generatedObjMeta) !! k = None ->
          (entries (Labels generatedObjMeta) ∪ m) !! k = m !! k)
    /\ (forall k, is_Some (m !! k) ->
          is_Some ((entries (Labels generatedObjMeta) ∪ m) !! k)).
Proof.
  intros Hm. rewrite EnsureObjectMetaIsUpdated_eq, Hm, copyLabels_allocated.
  eexists. split; [reflexivity|]. split; [|split].
  - intros k v Hk. apply lookup_union_Some_l, Hk.
  - intros k Hk. apply lookup_union_r, Hk.
  - intros k Hk. apply lookup_union_is_Some. right. exact Hk.
Qed.

(** The flag is false exactly when the returned metadata is the existing
    one, that is when the owner references are the same (a nil slice is not
    an empty one) and every generated label is already there with its
    value. *)
Theorem EnsureObjectMeta_flag existingObjMeta generatedObjMeta toUpdate updatedMeta :
  EnsureObjectMetaIsUpdated existingObjMeta generatedObjMeta = Some (toUpdate, updatedMeta) ->
  (toUpdate = false <-> updatedMeta = existingObjMeta)
  /\ (toUpdate = false
      <-> OwnerReferences generatedObjMeta = OwnerReferences existingObjMeta
          /\ entries (Labels generatedObjMeta) ⊆ entries (Labels existingObjMeta)).
Proof.
  rewrite EnsureObjectMetaIsUpdated_eq.
  destruct existingObjMeta as [n ns ls an ow fs]. simpl.
  destruct ls as [m|].
  - rewrite copyLabels_allocated. intros [= <- <-]. unfold DeepEqual.
    rewrite !orb_false_iff, !negb_false_iff, !bool_decide_eq_true. simpl.
    rewrite <- union_fixed_iff. split.
    + split; [intros [-> E]; rewrite <- E; reflexivity|].
      intros [= E1 E2]. split; congruence.
    + split; intros [E1 E2]; split; congruence.
  - rewrite copyLabels_nil.
    destruct (decide (entries (Labels generatedObjMeta) = ∅)) as [Eg|Eg]; [|discriminate].
    intros [= <- <-]. unfold DeepEqual.
    rewrite !orb_false_iff, !negb_false_iff, !bool_decide_eq_true. simpl. rewrite Eg. split.
    + split; [intros [-> _]; reflexivity|]. intros [= E1]. split; congruence.
    + split; intros [E1 _]; split; congruence || reflexivity.
Qed.

(** A second call on the returned metadata changes nothing: it returns the
    same metadata with a false flag. *)
Theorem EnsureObjectMeta_idempotent existingObjMeta generatedObjMeta toUpdate updatedMeta :
  EnsureObjectMetaIsUpdated existingObjMeta generatedObjMeta = Some (toUpdate, updatedMeta) ->
  EnsureObjectMetaIsUpdated updatedMeta generatedObjMeta = Some (false, updatedMeta).
Proof.
  rewrite EnsureObjectMetaIsUpdated_eq.
  destruct (Labels existingObjMeta) as [m|].
  - rewrite copyLabels_allocated. intros [= _ <-].
    rewrite EnsureObjectMetaIsUpdated_eq. simpl. rewrite copyLabels_allocated.
    rewrite (assoc_L (∪)), (idemp_L (∪)).
    unfold DeepEqual. rewrite !bool_decide_eq_true_2 by reflexivity. reflexivity.
  - rewrite copyLabels_nil.
    destruct (decide (entries (Labels generatedObjMeta) = ∅)) as [Eg|Eg]; [|discriminate].
    intros [= _ <-].
    rewrite EnsureObjectMetaIsUpdated_eq. simpl. rewrite copyLabels_nil, decide_True by exact Eg.
    unfold DeepEqual. rewrite !bool_decide_eq_true_2 by reflexivity. reflexivity.
Qed.

(** ** API versions *)

Lemma Contains_slash_cons c s :
  Contains (String c s) "/" = false -> c <> "/"%char /\ Contains s "/" = false.
Proof.
  change (Contains (String c s) "/")
    with (if (if Ascii.eqb "/"%char c then true else false) then true else Contains s "/").
  destruct (Ascii.eqb_spec "/"%char c) as [<-|Hne]; [discriminate|].
  intros H. split; [congruence|exact H].
Qed.

Lemma slash_join_injective g g' v v' :
  Contains g "/" = false -> Contains g' "/" = false ->
  g +:+ "/" +:+ v = g' +:+ "/" +:+ v' -> g = g' /\ v = v'.
Proof.
  revert g'. induction g as [|c g IH]; intros [|c' g'] Hg Hg' E; simpl in E.
  - injection E as E. split; [reflexivity|exact E].
  - injection E as Ec _. destruct (Contains_slash_cons _ _ Hg') as [Hc _]. congruence.
  - injection E as Ec _. destruct (Contains_slash_cons _ _ Hg) as [Hc _]. congruence.
  - injection E as Ec E. destruct (Contains_slash_cons _ _ Hg) as [_ Hg1].
    destruct (Contains_slash_cons _ _ Hg') as [_ Hg1'].
    destruct (IH g' Hg1 Hg1' E) as [Eg Ev]. split; congruence.
Qed.

(** The string [GetAPIVersionForObject] builds tells group and version
    apart: two objects whose groups hold no slash and that get the same
    string have the same group and the same version. *)
Theorem GetAPIVersionForObject_injective obj obj' :
  Contains (Group obj) "/" = false ->
  Contains (Group obj') "/" = false ->
  GetAPIVersionForObject obj = GetAPIVersionForObject obj' ->
  Group obj = Group obj' /\ Version obj = Version obj'.
Proof. unfold GetAPIVersionForObject. apply slash_join_injective. Qed.

End MetadataFacts.

(** * Worked instances

    The theorems above at concrete entities, and the inputs at which the
    specification and the code part ways. *)

Module Instances.

Import Sample.

(** C1. A service whose Konnect ID is empty but whose Programmed condition
    is fresh: [Update] returns the remaining 49 seconds as a requeue hint and
    a nil error, not the missing-identity error.  No adapter is called. *)
Lemma Update_fresh_without_identity :
  konnectID None (KonnectStatus svcNoID) = Some ""
  /\ Fresh svcNoID minute (clock 1)
  /\ returned (Update Remote failing clock None typeName KongService minute p (world svcNoID))
     = Some (mkResult false (49 * Second), None)
  /\ adapterCalls
       (trace (worldOf (Update Remote failing clock None typeName KongService minute p
                          (world svcNoID))))
     = [].
Proof.
  split; [reflexivity|]. split; [apply freshb_Fresh; vm_compute; reflexivity|].
  split; vm_compute; reflexivity.
Qed.



(** C3, the claim as stated fails: a fresh [Update] and a [Delete] without
    Konnect ID both end without a telemetry record. *)
Lemma no_telemetry_on_early_exit :
  (returned (Update Remote failing clock None typeName KongService minute p (world svc))
   = Some (mkResult false (49 * Second), None)
   /\ telemetry
        (trace (worldOf (Update Remote failing clock None typeName KongService minute p
                           (world svc))))
      = [])
  /\ (returned (Delete Remote failing clock None typeName KongService p (world svcNew))
      = Some (Some (MissingRemoteIdentity DeleteOp KongService svcNew))
      /\ telemetry
           (trace (worldOf (Delete Remote failing clock None typeName KongService p
                              (world svcNew))))
         = []).
Proof. repeat split; vm_compute; reflexivity. Qed.

(** C3 at a [Create] whose adapter fails: one record. *)
Lemma telemetry_per_call_witness :
  exists r ent',
    returned (Create Remote failing clock typeName KongService p (world svcNew)) = Some r
    /\ heap (worldOf (Create Remote failing clock typeName KongService p (world svcNew)))
         !! 1%positive = Some ent'
    /\ length (telemetry
                 (trace (worldOf (Create Remote failing clock typeName KongService p
                                    (world svcNew)))))
       = (length (telemetry (trace (world svcNew))) + recordsFor ent')%nat.
Proof.
  exact (proj1 (telemetry_per_call Remote failing clock None typeName KongService minute
                  1%positive (world svcNew) svcNew eq_refl)).
Defined.

(** C4. The failure of an [Update] on the service default/svc with the
    Konnect ID abc: the message names the operation, and the identifier shows
    up inside the dump of the entity, but the object key default/svc is not
    in it, since the long format prints the type of the key in its place.
    The failure of a [Create] on the same service before it has an
    identifier gives a message of the same shape, again without the key. *)
Lemma wrapErr_message_without_key :
  returned (wrapErrIfKonnectOpFailed Remote dump KongService (Some boom) UpdateOp p
              (world svc))
  = Some (Some (wrapError
       (longForm UpdateOp NamespacedName_typeString (dump svc) (Error boom)) boom))
  /\ HasPrefix (longForm UpdateOp NamespacedName_typeString (dump svc) (Error boom))
       "failed to update for types.NamespacedName " = true
  /\ Contains (longForm UpdateOp NamespacedName_typeString (dump svc) (Error boom))
       UpdateOp = true
  /\ Contains (longForm UpdateOp NamespacedName_typeString (dump svc) (Error boom))
       "abc" = true
  /\ Contains (longForm UpdateOp NamespacedName_typeString (dump svc) (Error boom))
       (NamespacedName_String (ObjectKeyFromObject svc)) = false
  /\ returned (wrapErrIfKonnectOpFailed Remote dump KongService (Some boom) CreateOp p
                 (world svcNew))
     = Some (Some (wrapError
          (longForm CreateOp NamespacedName_typeString (dump svcNew) (Error boom)) boom))
  /\ Contains (longForm CreateOp NamespacedName_typeString (dump svcNew) (Error boom))
       CreateOp = true
  /\ Contains (longForm CreateOp NamespacedName_typeString (dump svcNew) (Error boom))
       "abc" = false
  /\ Contains (longForm CreateOp NamespacedName_typeString (dump svcNew) (Error boom))
       (NamespacedName_String (ObjectKeyFromObject svcNew)) = false.
Proof.
  split; [reflexivity|]. repeat split; vm_compute; reflexivity.
Qed.

(** The two messages for the failing adapter's error. *)
Lemma wrapErr_message_forms_witness :
  returned (wrapErrIfKonnectOpFailed Remote dump KongService (Some boom) UpdateOp p
              (world svc))
  = Some (Some (wrapError
       (longForm UpdateOp NamespacedName_typeString (dump svc) (Error boom)) boom))
  /\ returned (wrapErrIfKonnectOpFailed Remote dump KongService (Some boom) UpdateOp None
                 (world svc))
     = Some (Some (wrapError (shortForm UpdateOp (typeString KongService) (Error boom)) boom)).
Proof.
  pose proof (wrapErr_message_forms Remote dump KongService UpdateOp boom (world svc))
    as (Hshort & Hlong & _).
  split; [exact (Hlong 1%positive svc eq_refl)|exact Hshort].
Defined.

(** C5, the claim as stated fails: a Programmed condition stamped three
    centuries ahead of the clock is fresh, [time.Since] saturates at the
    smallest [Duration], and the hint wraps around to a negative value. *)
Lemma Update_far_future_transition :
  Fresh svcAhead minute (clock 1)
  /\ elapsed svcAhead (clock 1) = Int64.min
  /\ returned (Update Remote working clock None typeName KongService minute p (world svcAhead))
     = Some (mkResult false (-9223371976854775808), None)
  /\ -9223371976854775808 < 0.
Proof.
  split; [apply freshb_Fresh; vm_compute; reflexivity|].
  split; [vm_compute; reflexivity|]. split; [vm_compute; reflexivity|lia].
Qed.

(** C5 at two successive calls on a fresh service, 11 and 13 seconds after
    its last transition: the hints are 49 and 47 seconds. *)
Lemma Update_fresh_requeue_witness :
  returned (Update Remote failing clock None typeName KongService minute p (world svc))
  = Some (mkResult false (49 * Second), None)
  /\ returned (Update Remote failing clock None typeName KongService minute p
                 (worldOf (Update Remote failing clock None typeName KongService minute p
                             (world svc))))
     = Some (mkResult false (47 * Second), None)
  /\ 0 <= 47 * Second < 49 * Second
  /\ untouched (world svc)
       (worldOf (Update Remote failing clock None typeName KongService minute p
                   (worldOf (Update Remote failing clock None typeName KongService minute p
                               (world svc))))).
Proof.
  pose proof (Update_fresh_requeue Remote failing clock None typeName KongService minute
                1%positive (world svc) svc eq_refl) as (_ & Hrepeat & _).
  apply Hrepeat.
  - apply freshb_Fresh; vm_compute; reflexivity.
  - apply freshb_Fresh; vm_compute; reflexivity.
  - vm_compute; reflexivity.
  - vm_compute. discriminate.
Defined.

(** The [default] branches at a kind outside the supported set. *)
Lemma unsupported_kind_fails_witness :
  returned (Create Remote working clock typeName (OtherKind "*v1.Secret") p (world svc))
  = Some (None, Some (UnsupportedKind (OtherKind "*v1.Secret")))
  /\ returned (Delete Remote working clock None typeName (OtherKind "*v1.Secret") p (world svc))
     = Some (Some (UnsupportedKind (OtherKind "*v1.Secret")))
  /\ untouched (world svc)
       (worldOf (Create Remote working clock typeName (OtherKind "*v1.Secret") p (world svc))).
Proof.
  pose proof (unsupported_kind_fails Remote working clock None typeName "*v1.Secret" minute
                1%positive (world svc) svc eq_refl) as (HC & HD & _ & HfC & _).
  split; [exact HC|]. split; [|exact HfC].
  apply (HD "abc" eq_refl). discriminate.
Defined.

(** C7 at the failing adapter's error. *)
Lemma wrapErr_keeps_cause_witness :
  exists r,
    wrapErrIfKonnectOpFailed Remote dump KongService (Some boom) UpdateOp p (world svc)
    = Returns r (world svc)
    /\ (r = None <-> Some boom = None)
    /\ (forall cause, Some boom = Some cause ->
          exists wrapped,
            r = Some wrapped /\ Unwrap wrapped = Some cause /\ errors_Is wrapped cause = true).
Proof.
  apply (wrapErr_keeps_cause Remote dump KongService (Some boom) UpdateOp p (world svc)).
  right. exists 1%positive, svc. split; reflexivity.
Defined.

(** C8 at a service that is created successfully: the handle comes back and
    the entity behind it carries the identifier the adapter assigned. *)
Lemma Create_returns_its_handle_witness :
  exists f,
    createAdapter Remote working KongService = Some f
    /\ returned (Create Remote working clock typeName KongService p (world svcNew))
       = Some (p, (f svcNew (remote (world svcNew))).2)
    /\ heap (worldOf (Create Remote working clock typeName KongService p (world svcNew)))
         !! 1%positive
       = Some (f svcNew (remote (world svcNew))).1.1.
Proof.
  exact (proj1 (Create_returns_its_handle Remote working clock typeName KongService
                  1%positive (world svcNew) svcNew eq_refl) eq_refl).
Defined.

(** C9 at a service without Konnect ID. *)
Lemma core_never_writes_entity_witness :
  untouched (world svcNoID)
    (worldOf (Delete Remote working clock None typeName KongService p (world svcNoID)))
  /\ untouched (world svcNoID)
       (worldOf (Update Remote working clock None typeName KongService minute p
                   (world svcNoID))).
Proof.
  exact (proj1 (core_never_writes_entity Remote working clock None typeName KongService
                  minute 1%positive (world svcNoID) svcNoID eq_refl) eq_refl).
Defined.

(** C10 at an entity without Konnect status. *)
Lemma nil_status_no_telemetry_witness :
  logOpComplete Remote clock typeName KongService t0 CreateOp p (world svcBare)
  = Returns tt (world svcBare).
Proof.
  exact (proj1 (nil_status_no_telemetry Remote working clock None typeName KongService
                  minute t0 CreateOp 1%positive (world svcBare) svcBare eq_refl) eq_refl).
Defined.

(** The two facts next to C1, at the service without Konnect ID. *)
Lemma Delete_requires_identity_witness :
  Delete Remote working clock None typeName KongService p (world svcNoID)
  = Returns (Some (MissingRemoteIdentity DeleteOp KongService svcNoID)) (world svcNoID).
Proof.
  apply (Delete_requires_identity Remote working clock None typeName KongService 1%positive
           (world svcNoID) svcNoID); reflexivity.
Defined.

Lemma Update_without_identity_witness :
  untouched (world svcNew)
    (worldOf (Update Remote working clock None typeName KongService minute p (world svcNew))).
Proof.
  exact (proj1 (Update_without_identity Remote working clock None typeName KongService
                  minute 1%positive (world svcNew) svcNew eq_refl eq_refl)).
Defined.

(** Staleness idempotence at the same two calls. *)
Lemma staleness_idempotence_witness :
  returned (Update Remote failing clock None typeName KongService minute p (world svc))
  = Some (mkResult false (49 * Second), None)
  /\ returned (Update Remote failing clock None typeName KongService minute p
                 (worldOf (Update Remote failing clock None typeName KongService minute p
                             (world svc))))
     = Some (mkResult false (47 * Second), None).
Proof.
  pose proof (staleness_idempotence Remote failing clock None typeName KongService minute
                1%positive (world svc) svc (programmed 3 (t0 - 10 * Second)) eq_refl)
    as Hidem.
  destruct Hidem as (H1 & H3 & _).
  - repeat split.
  - vm_compute. split; discriminate.
  - vm_compute. discriminate.
  - vm_compute. reflexivity.
  - vm_compute. discriminate.
  - split; [exact H1|exact H3].
Defined.

End Instances.

(** * More worked instances *)

Module MoreInstances.

Import Sample SampleSync.

(** A service is created and then deleted: the delete adapter is given the
    entity with the identifier abc. *)
Lemma Create_then_Delete_witness :
  returned (Delete Remote working clock None typeName KongService p
              (worldOf (Create Remote working clock typeName KongService p (world svcNew))))
  = Some None
  /\ heap (worldOf (Delete Remote working clock None typeName KongService p
                      (worldOf (Create Remote working clock typeName KongService p
                                  (world svcNew))))) !! 1%positive
     = Some (mkEntity "default" "svc" 1 [] (Some (mkKonnectEntityStatus "abc" "" "")))
  /\ adapterCalls
       (trace (worldOf (Delete Remote working clock None typeName KongService p
                          (worldOf (Create Remote working clock typeName KongService p
                                      (world svcNew))))))
     = [EvAdapter CreateOp KongService p; EvAdapter DeleteOp KongService p].
Proof.
  apply (Create_then_Delete Remote working clock None typeName KongService 1%positive
           (world svcNew) svcNew assignID succeed "abc" eq_refl eq_refl eq_refl eq_refl).
  discriminate.
Defined.

Lemma Create_twice_witness :
  returned (Create Remote failing clock typeName KongService p
              (worldOf (Create Remote failing clock typeName KongService p (world svcNew))))
  = Some (p, Some boom)
  /\ adapterCalls
       (trace (worldOf (Create Remote failing clock typeName KongService p
                          (worldOf (Create Remote failing clock typeName KongService p
                                      (world svcNew))))))
     = [EvAdapter CreateOp KongService p; EvAdapter CreateOp KongService p].
Proof.
  exact (Create_twice Remote failing clock typeName KongService 1%positive
           (world svcNew) svcNew fail eq_refl eq_refl).
Defined.

(** The record of a successful creation shows the identifier just assigned
    and a duration of one second, the distance of two clock readings. *)
Lemma trace_of_dispatched_operation_witness :
  trace (worldOf (Create Remote working clock typeName KongService p (world svcNew)))
  = [EvAdapter CreateOp KongService p;
     EvInfo "operation in Konnect API complete" CreateOp Second "KongService" "abc"].
Proof.
  exact (proj1 (trace_of_dispatched_operation Remote working clock None typeName KongService
                  minute 1%positive (world svcNew) svcNew eq_refl)
           assignID (mkKonnectEntityStatus "abc" "" "") eq_refl eq_refl).
Defined.

(** A service whose generation was bumped is synchronized once; the next
    call finds it fresh and returns the remaining 58 seconds. *)
Lemma Update_then_Update_skips_witness :
  returned (Update Remote syncing clock None typeName KongService minute p
              (worldOf (Update Remote syncing clock None typeName KongService minute p
                          (world (bumpGeneration svc)))))
  = Some (mkResult false (58 * Second), None)
  /\ adapterCalls
       (trace (worldOf (Update Remote syncing clock None typeName KongService minute p
                          (worldOf (Update Remote syncing clock None typeName KongService
                                      minute p (world (bumpGeneration svc)))))))
     = [EvAdapter UpdateOp KongService p].
Proof.
  pose proof (Update_then_Update_skips Remote syncing clock None typeName KongService minute
                1%positive (world (bumpGeneration svc)) (bumpGeneration svc) reprogram "abc"
                eq_refl) as Hskip.
  destruct Hskip as (Hr & Hc & _).
  - apply not_Fresh_bumped. apply freshb_Fresh. vm_compute. reflexivity.
  - reflexivity.
  - discriminate.
  - reflexivity.
  - apply freshb_Fresh. vm_compute. reflexivity.
  - split; [exact Hr|exact Hc].
Defined.

Lemma Update_stale_stays_stale_witness :
  returned (Update Remote working clock None typeName KongService minute p
              (later (bumpGeneration svc)))
  = Some (emptyResult, None)
  /\ adapterCalls
       (trace (worldOf (Update Remote working clock None typeName KongService minute p
                          (later (bumpGeneration svc)))))
     = [EvAdapter UpdateOp KongService p].
Proof.
  apply (Update_stale_stays_stale Remote working clock None typeName KongService minute
           1%positive (world (bumpGeneration svc)) (later (bumpGeneration svc))
           (bumpGeneration svc) succeed "abc" eq_refl eq_refl).
  - vm_compute. discriminate.
  - apply not_Fresh_bumped. apply freshb_Fresh. vm_compute. reflexivity.
  - reflexivity.
  - discriminate.
  - reflexivity.
Defined.

Lemma wrapErr_twice_witness :
  exists inner outer,
    wrapErrIfKonnectOpFailed Remote dump KongService (Some boom) UpdateOp p (world svc)
    = Returns (Some inner) (world svc)
    /\ wrapErrIfKonnectOpFailed Remote dump KongService (Some inner) UpdateOp p (world svc)
       = Returns (Some outer) (world svc)
    /\ Unwrap outer = Some inner
    /\ Unwrap inner = Some boom
    /\ errors_Is outer inner = true
    /\ errors_Is outer boom = true
    /\ Contains (Error outer) (Error inner) = true
    /\ Contains (Error inner) (Error boom) = true.
Proof.
  exact (wrapErr_twice Remote dump KongService KongService UpdateOp UpdateOp boom 1%positive
           (world svc) svc eq_refl).
Defined.

Lemma failed_condition_is_dispatched_witness :
  returned (Update Remote working clock None typeName KongService minute p (world svcFailed))
  = Some (emptyResult, None)
  /\ adapterCalls
       (trace (worldOf (Update Remote working clock None typeName KongService minute p
                          (world svcFailed))))
     = [EvAdapter UpdateOp KongService p].
Proof.
  apply (failed_condition_is_dispatched Remote working clock None typeName KongService minute
           1%positive (world svcFailed) svcFailed failedCondition succeed "abc"
           eq_refl eq_refl eq_refl eq_refl).
  - discriminate.
  - reflexivity.
Defined.

Import k8sutils.

Lemma Ensure_then_Remove_witness :
  RemoveFinalizerInMetadata (EnsureFinalizerInMetadata existing "protect").2 "protect"
  = (true, existing).
Proof.
  pose proof (MetadataFacts.Ensure_then_Remove existing "protect") as H.
  destruct H as (_ & H & _).
  - vm_compute. intros [E|[]]. discriminate E.
  - exact H.
Defined.

Lemma Remove_then_Ensure_witness :
  elems (Finalizers
           (EnsureFinalizerInMetadata (RemoveFinalizerInMetadata existing "cleanup").2
              "cleanup").2)
  = ["cleanup"].
Proof.
  pose proof (MetadataFacts.Remove_then_Ensure existing "cleanup") as H.
  destruct H as (H & _).
  - vm_compute. constructor; [intros []|constructor].
  - vm_compute. auto.
  - exact H.
Defined.

Lemma finalizers_stay_distinct_witness :
  List.NoDup (elems (Finalizers (EnsureFinalizerInMetadata existing "protect").2))
  /\ List.NoDup (elems (Finalizers (RemoveFinalizerInMetadata existing "protect").2)).
Proof.
  apply (MetadataFacts.finalizers_stay_distinct existing "protect").
  vm_compute. constructor; [intros []|constructor].
Defined.

Lemma EnsureObjectMeta_result_witness :
  exists toUpdate,
    EnsureObjectMetaIsUpdated existing generated
    = Some (toUpdate,
            mkObjectMeta "svc" "default"
              (Some (entries (Labels generated) ∪ {[ "app" := "old"; "team" := "core" ]}))
              None (Some [owner]) (Some ["cleanup"])).
Proof.
  destruct (MetadataFacts.EnsureObjectMeta_result existing generated
              {[ "app" := "old"; "team" := "core" ]} eq_refl) as (b & H & _).
  exists b. exact H.
Defined.

Lemma EnsureObjectMeta_flag_witness :
  exists updatedMeta,
    EnsureObjectMetaIsUpdated existing generated = Some (true, updatedMeta)
    /\ (true = false <-> updatedMeta = existing).
Proof.
  eexists. split; [reflexivity|].
  exact (proj1 (MetadataFacts.EnsureObjectMeta_flag existing generated true _ eq_refl)).
Defined.

Lemma EnsureObjectMeta_idempotent_witness :
  exists updatedMeta,
    EnsureObjectMetaIsUpdated existing generated = Some (true, updatedMeta)
    /\ EnsureObjectMetaIsUpdated updatedMeta generated = Some (false, updatedMeta).
Proof.
  eexists. split; [reflexivity|].
  exact (MetadataFacts.EnsureObjectMeta_idempotent existing generated true _ eq_refl).
Defined.

Lemma GetAPIVersionForObject_injective_witness :
  Group (mkGroupVersionKind "apps" "v1" "Deployment")
  = Group (mkGroupVersionKind "apps" "v1" "StatefulSet")
  /\ Version (mkGroupVersionKind "apps" "v1" "Deployment")
     = Version (mkGroupVersionKind "apps" "v1" "StatefulSet").
Proof.
  apply MetadataFacts.GetAPIVersionForObject_injective; reflexivity.
Defined.

End MoreInstances.
